(** * UML Studio (src/App.tsx): diagram selection, rendering lifecycle,
      sidebar grouping, copy and export.

    The development is a shallow embedding of [src/App.tsx].  JavaScript
    strings are [string]s, arrays are [list]s, the [Map] built by the
    sidebar is an insertion-ordered association list, and the React
    component tree (two components, three [useState] cells besides the
    selection, two [useEffect]s) is a state record driven by the events the
    browser can deliver: clicks, promise settlements and timer expiry. *)

From Stdlib Require Import String Ascii List Bool Arith Lia Permutation.
Import ListNotations.
Open Scope string_scope.

(* ================================================================== *)
(** ** JavaScript string helpers *)

Module Js.

(** [s.replace(/c/g, r)] for a one-character pattern [c] and a replacement
    [r] without [$] patterns: every occurrence of [c] becomes [r]. *)
Fixpoint replace (c : ascii) (r : string) (s : string) : string :=
  match s with
  | EmptyString => EmptyString
  | String a s' =>
      if Ascii.eqb a c then r ++ replace c r s' else String a (replace c r s')
  end.

(** Does the character [c] occur in [s]? *)
Fixpoint occurs (c : ascii) (s : string) : bool :=
  match s with
  | EmptyString => false
  | String a s' => Ascii.eqb a c || occurs c s'
  end.

(** [!s] on a string: only the empty string is falsy. *)
Definition falsy (s : string) : bool :=
  match s with
  | EmptyString => true
  | String _ _ => false
  end.

(** The line feed produced by [\n] and the double quote, which the string
    notation cannot hold directly. *)
Definition nl : string := String (ascii_of_nat 10) EmptyString.
Definition dq : string := String (ascii_of_nat 34) EmptyString.

End Js.
Import Js.

(* ================================================================== *)
(** ** The data model: [interface Diagram] and the catalog [diagrams] *)

Record Diagram : Type := mkDiagram {
  id : string;
  group : string;
  title : string;
  code : string
}.

(** The object spread [{...prev}]: a new object with the same own fields. *)
Definition spread (prev : Diagram) : Diagram :=
  {| id := id prev; group := group prev; title := title prev; code := code prev |}.

Definition CLASSDEF : string :=
  "classDef risk fill:#fff3cd,stroke:#f0ad4e,color:#8a6d3b;" ++ nl.

Definition OTO0 : Diagram :=
  {| id := "OTO0";
     group := "Otomato Platform";
     title := "System Overview (Use-Case)";
     code :=
    "flowchart LR" ++ nl ++ "  U([User])" ++ nl ++ "  D([Developer])" ++ nl ++
    "  P([Partner Protocol])" ++ nl ++ nl ++
    "  subgraph Otomato[Otomato Automation Platform]" ++ nl ++
    "    UC1((Create No-Code Agent))" ++ nl ++ "    UC2((Use Otomato SDK))" ++ nl ++
    "    UC3((Integrate via API))" ++ nl ++ "    UC4((Monitor On-Chain Events))" ++ nl ++
    "  end" ++ nl ++ nl ++ "  U --> UC1" ++ nl ++ "  D --> UC2" ++ nl ++ "  P --> UC3" ++
    nl ++ "  UC1 --> UC4" ++ nl ++ "  UC2 --> UC4" |}.

Definition OTO1 : Diagram :=
  {| id := "OTO1";
     group := "Otomato Platform";
     title := "No-Code Automation Workflow (Flowchart)";
     code :=
    "flowchart TD" ++ nl ++ "  " ++ CLASSDEF ++
    "  A[Start: User opens Automation Builder]" ++ nl ++ "  B{" ++ dq ++
    "Define Trigger<br/><i>e.g., Gas price < 10 Gwei</i>" ++ dq ++ "}" ++ nl ++ "  C{" ++
    dq ++ "Define Action<br/><i>e.g., Swap ETH for TOKEN</i>" ++ dq ++ "}" ++ nl ++
    "  D[Save & Deploy Agent]" ++ nl ++ "  E((Otomato Engine Monitors Blockchain))" ++
    nl ++ "  F{Condition Met?}" ++ nl ++ "  G[Execute Transaction via Smart Account]" ++
    nl ++ "  H([End: Success])" ++ nl ++ "  I([End: Failed])" ++ nl ++ nl ++
    "  A --> B --> C --> D --> E --> F" ++ nl ++ "  F -- Yes --> G --> H" ++ nl ++
    "  F -- No --> E" ++ nl ++ "  G -- Error --> I" |}.

Definition OTO2 : Diagram :=
  {| id := "OTO2";
     group := "Otomato Platform";
     title := "Technology Ecosystem (Component View)";
     code :=
    "flowchart TD" ++ nl ++ "  subgraph UserFacing[User-Facing Layer]" ++ nl ++
    "    UI[No-Code Builder UI]" ++ nl ++ "    SDK[TypeScript SDK]" ++ nl ++ "  end" ++
    nl ++ nl ++ "  subgraph CoreEngine[Core Engine]" ++ nl ++
    "    AE[Automation Engine]" ++ nl ++ "    SA[" ++ dq ++
    "Smart Accounts<br/>(ERC-4337)" ++ dq ++ "]" ++ nl ++ "  end" ++ nl ++ nl ++
    "  subgraph Integrations[Integrations & Infrastructure]" ++ nl ++ "    EVM[" ++ dq ++
    "EVM Chains<br/>(Base, Ethereum, etc.)" ++ dq ++ "]" ++ nl ++ "    DeFi[" ++ dq ++
    "DeFi Protocols<br/>(Aave, Compound)" ++ dq ++ "]" ++ nl ++ "    Privacy[" ++ dq ++
    "Privacy Layer<br/>(iExec)" ++ dq ++ "]" ++ nl ++ "  end" ++ nl ++ nl ++
    "  UI --> AE" ++ nl ++ "  SDK --> AE" ++ nl ++ "  AE --> SA" ++ nl ++ "  SA --> EVM" ++
    nl ++ "  SA --> DeFi" ++ nl ++ "  AE --> Privacy" |}.

Definition OTO3 : Diagram :=
  {| id := "OTO3";
     group := "Strategy & Growth";
     title := "Funding & Partnerships (Sequence)";
     code :=
    "sequenceDiagram" ++ nl ++ "  autonumber" ++ nl ++
    "  participant C as Coinsilium (Investor)" ++ nl ++ "  participant O as Otomato" ++
    nl ++ "  participant I as iExec (Partner)" ++ nl ++
    "  participant M as Mode Network" ++ nl ++ nl ++
    "  C->>O: Provide Strategic Funding (SAFT)" ++ nl ++
    "  O-->>C: Grant % of future revenue & tokens" ++ nl ++
    "  O->>I: Propose technical integration" ++ nl ++
    "  I-->>O: Agree to provide privacy tools on Arbitrum" ++ nl ++
    "  O->>M: Join Yield Accelerator Program" ++ nl ++
    "  M-->>O: Provide ecosystem support & grant" ++ nl ++
    "  O->>O: Develop platform using funds & tech" |}.

Definition OTO4 : Diagram :=
  {| id := "OTO4";
     group := "Strategy & Growth";
     title := "Project Launch Roadmap (Flowchart)";
     code :=
    "flowchart LR" ++ nl ++ "  " ++ CLASSDEF ++
    "  A[Q3 2024: Private Beta] --> B[Q4 2024: Public Launch]" ++ nl ++ "  B --> C[" ++
    dq ++ "Q2 2025: Token Generation Event (TGE)" ++ dq ++ "]" ++ nl ++
    "  C --> D[Post-TGE: Exchange Listings & DAO Formation]" ++ nl ++ nl ++
    "  R1{{Tokenomics Not Public}}:::risk" ++ nl ++ "  C -.-> R1" |}.

Definition diagrams : list Diagram := [OTO0; OTO1; OTO2; OTO3; OTO4].

(* ================================================================== *)
(** ** The error panel of [MermaidRenderer]'s [.catch] handler *)

(** [code.replace(/&/g, "&amp;").replace(/</g, "&lt;").replace(/>/g, "&gt;")] *)
Definition safeCode (code : string) : string :=
  replace ">"%char "&gt;"
    (replace "<"%char "&lt;"
       (replace "&"%char "&amp;" code)).

Definition panel_head : string :=
  "<pre class='text-red-500 whitespace-pre-wrap p-4 bg-red-50 dark:bg-red-900/20 rounded-lg'><strong>Mermaid Render Error:</strong><br/>".
Definition panel_mid : string := "<br/><br/><strong>Code:</strong><br/>".
Definition panel_tail : string := "</pre>".

(** The template literal assigned to [innerHTML]; [err] stands for
    [String(err)]. *)
Definition error_panel (err : string) (code : string) : string :=
  panel_head ++ err ++ panel_mid ++ safeCode code ++ panel_tail.

(** The loading indicator written before [mermaid.render] is called. *)
Definition spinner : string :=
  "<div class=" ++ dq ++ "flex justify-center items-center h-64" ++ dq ++
  "><div class=" ++ dq ++
  "animate-spin rounded-full h-16 w-16 border-t-2 border-b-2 border-gray-500" ++ dq ++
  "></div></div>".

(** Two reference functions, used only to state what [safeCode] computes:
    the one-pass, character-by-character escaping, and its decoder. *)
Definition escape_char (c : ascii) : string :=
  if Ascii.eqb c "&"%char then "&amp;"
  else if Ascii.eqb c "<"%char then "&lt;"
  else if Ascii.eqb c ">"%char then "&gt;"
  else String c EmptyString.

Fixpoint escape_chars (s : string) : string :=
  match s with
  | EmptyString => EmptyString
  | String c s' => escape_char c ++ escape_chars s'
  end.

Fixpoint unescape (s : string) : string :=
  match s with
  | EmptyString => EmptyString
  | String c r =>
      if Ascii.eqb c "&"%char then
        match r with
        | String "a"%char (String _ (String _ (String _ r'))) =>
            String "&"%char (unescape r')
        | String "l"%char (String _ (String _ r')) => String "<"%char (unescape r')
        | String "g"%char (String _ (String _ r')) => String ">"%char (unescape r')
        | _ => String c (unescape r)
        end
      else String c (unescape r)
  end.

(* ================================================================== *)
(** ** [Sidebar]: grouping the catalog *)

Module Sidebar.

(** [Map<string, Diagram[]>].  A JavaScript [Map] iterates in insertion
    order, so it is an association list whose keys are kept distinct by
    [set]. *)
Definition JsMap : Type := list (string * list Diagram).

(** [m.has(k)] *)
Fixpoint has (m : JsMap) (k : string) : bool :=
  match m with
  | [] => false
  | (k', _) :: m' => String.eqb k' k || has m' k
  end.

(** [m.set(k, v)]: a present key keeps its position, a new one goes last. *)
Fixpoint set (m : JsMap) (k : string) (v : list Diagram) : JsMap :=
  match m with
  | [] => [(k, v)]
  | (k', v') :: m' =>
      if String.eqb k' k then (k', v) :: m' else (k', v') :: set m' k v
  end.

(** [m.get(k)?.push(d)]: the array stored under [k] grows in place; when
    [get] yields [undefined] the optional call does nothing. *)
Fixpoint get_push (m : JsMap) (k : string) (d : Diagram) : JsMap :=
  match m with
  | [] => []
  | (k', v') :: m' =>
      if String.eqb k' k then (k', (v' ++ [d])%list) :: m'
      else (k', v') :: get_push m' k d
  end.

(** The body of [items.forEach((d) => ...)]. *)
Definition visit (m : JsMap) (d : Diagram) : JsMap :=
  let m1 := if negb (has m (group d)) then set m (group d) [] else m in
  get_push m1 (group d) d.

(** [groups]: the [useMemo] body, ending in [Array.from(m.entries())]. *)
Definition groups (items : list Diagram) : JsMap :=
  fold_left visit items [].

(** Reference definitions in the words of the specification: the labels
    in order of first occurrence, and under each label the entries that
    carry it, in catalog order. *)
Fixpoint first_occurrences (l : list string) : list string :=
  match l with
  | [] => []
  | x :: l' => x :: filter (fun y => negb (String.eqb y x)) (first_occurrences l')
  end.

Definition members (g : string) (items : list Diagram) : list Diagram :=
  filter (fun d => String.eqb (group d) g) items.

Definition grouping_spec (items : list Diagram) : JsMap :=
  map (fun g => (g, members g items)) (first_occurrences (map group items)).

(** All entries of all groups, in display order. *)
Definition flatten (m : JsMap) : list Diagram := concat (map snd m).

End Sidebar.

(* ================================================================== *)
(** ** The rendering engine boundary ([window.mermaid]) *)

Module Mermaid.

(** The options object of [mermaid.initialize]. *)
Record Config : Type := mkConfig {
  startOnLoad : bool;
  theme : string;
  securityLevel : string;
  flowchart_htmlLabels : bool;
  flowchart_diagramPadding : nat;
  sequence_actorMargin : nat
}.

(** Calls made to the engine.  The element id [mmd_<random>] of a render
    call is represented by the sequence number of the effect run that
    makes the call: the component uses the id for nothing else. *)
Inductive Call : Type :=
| initialize (c : Config)
| render (tok : nat) (text : string).

Definition is_render (c : Call) : bool :=
  match c with
  | render _ _ => true
  | initialize _ => false
  end.

End Mermaid.

(* ================================================================== *)
(** ** [App] and [MermaidRenderer] as a state machine *)

(** What one run of [MermaidRenderer]'s effect closes over: the [code] it
    was started with and its own [let active = true]. *)
Record Run : Type := mkRun {
  run_code : string;
  active : bool
}.

(** What [download] hands to the browser: the [Blob] and the anchor's
    [download] attribute. *)
Record File : Type := mkFile {
  filename : string;
  mime : string;
  content : string
}.

Record State : Type := mkState {
  (* the four [useState] cells of [App] *)
  selected : Diagram;
  svg : string;
  dark : bool;
  copyStatus : string;
  (* the [MermaidRenderer] instance *)
  ref_current : option string;   (* [ref.current]: [None] is null, [Some h] the div with innerHTML [h] *)
  cleanup : option nat;          (* the run whose cleanup function React holds *)
  runs : list Run;               (* every effect run so far, by sequence number *)
  (* the host environment *)
  mermaid_calls : list Mermaid.Call;
  onRender_calls : list string;
  downloads : list File;
  console_error : list string;
  clipboard : option string;
  class_dark : bool;             (* [document.documentElement] has class [dark] *)
  timers : list nat;             (* deadlines of pending [setTimeout] callbacks *)
  now : nat                      (* milliseconds *)
}.

Definition with_selected (v : Diagram) (st : State) : State :=
  {| selected := v; svg := svg st; dark := dark st; copyStatus := copyStatus st;
     ref_current := ref_current st; cleanup := cleanup st; runs := runs st;
     mermaid_calls := mermaid_calls st; onRender_calls := onRender_calls st;
     downloads := downloads st; console_error := console_error st;
     clipboard := clipboard st; class_dark := class_dark st; timers := timers st;
     now := now st |}.

Definition with_svg (v : string) (st : State) : State :=
  {| selected := selected st; svg := v; dark := dark st; copyStatus := copyStatus st;
     ref_current := ref_current st; cleanup := cleanup st; runs := runs st;
     mermaid_calls := mermaid_calls st; onRender_calls := onRender_calls st;
     downloads := downloads st; console_error := console_error st;
     clipboard := clipboard st; class_dark := class_dark st; timers := timers st;
     now := now st |}.

Definition with_dark (v : bool) (st : State) : State :=
  {| selected := selected st; svg := svg st; dark := v; copyStatus := copyStatus st;
     ref_current := ref_current st; cleanup := cleanup st; runs := runs st;
     mermaid_calls := mermaid_calls st; onRender_calls := onRender_calls st;
     downloads := downloads st; console_error := console_error st;
     clipboard := clipboard st; class_dark := class_dark st; timers := timers st;
     now := now st |}.

Definition with_copyStatus (v : string) (st : State) : State :=
  {| selected := selected st; svg := svg st; dark := dark st; copyStatus := v;
     ref_current := ref_current st; cleanup := cleanup st; runs := runs st;
     mermaid_calls := mermaid_calls st; onRender_calls := onRender_calls st;
     downloads := downloads st; console_error := console_error st;
     clipboard := clipboard st; class_dark := class_dark st; timers := timers st;
     now := now st |}.

Definition with_ref_current (v : option string) (st : State) : State :=
  {| selected := selected st; svg := svg st; dark := dark st;
     copyStatus := copyStatus st; ref_current := v; cleanup := cleanup st;
     runs := runs st; mermaid_calls := mermaid_calls st;
     onRender_calls := onRender_calls st; downloads := downloads st;
     console_error := console_error st; clipboard := clipboard st;
     class_dark := class_dark st; timers := timers st; now := now st |}.

Definition with_cleanup (v : option nat) (st : State) : State :=
  {| selected := selected st; svg := svg st; dark := dark st;
     copyStatus := copyStatus st; ref_current := ref_current st; cleanup := v;
     runs := runs st; mermaid_calls := mermaid_calls st;
     onRender_calls := onRender_calls st; downloads := downloads st;
     console_error := console_error st; clipboard := clipboard st;
     class_dark := class_dark st; timers := timers st; now := now st |}.

Definition with_runs (v : list Run) (st : State) : State :=
  {| selected := selected st; svg := svg st; dark := dark st;
     copyStatus := copyStatus st; ref_current := ref_current st; cleanup := cleanup st;
     runs := v; mermaid_calls := mermaid_calls st; onRender_calls := onRender_calls st;
     downloads := downloads st; console_error := console_error st;
     clipboard := clipboard st; class_dark := class_dark st; timers := timers st;
     now := now st |}.

Definition with_mermaid_calls (v : list Mermaid.Call) (st : State) : State :=
  {| selected := selected st; svg := svg st; dark := dark st;
     copyStatus := copyStatus st; ref_current := ref_current st; cleanup := cleanup st;
     runs := runs st; mermaid_calls := v; onRender_calls := onRender_calls st;
     downloads := downloads st; console_error := console_error st;
     clipboard := clipboard st; class_dark := class_dark st; timers := timers st;
     now := now st |}.

Definition with_onRender_calls (v : list string) (st : State) : State :=
  {| selected := selected st; svg := svg st; dark := dark st;
     copyStatus := copyStatus st; ref_current := ref_current st; cleanup := cleanup st;
     runs := runs st; mermaid_calls := mermaid_calls st; onRender_calls := v;
     downloads := downloads st; console_error := console_error st;
     clipboard := clipboard st; class_dark := class_dark st; timers := timers st;
     now := now st |}.

Definition with_downloads (v : list File) (st : State) : State :=
  {| selected := selected st; svg := svg st; dark := dark st;
     copyStatus := copyStatus st; ref_current := ref_current st; cleanup := cleanup st;
     runs := runs st; mermaid_calls := mermaid_calls st;
     onRender_calls := onRender_calls st; downloads := v;
     console_error := console_error st; clipboard := clipboard st;
     class_dark := class_dark st; timers := timers st; now := now st |}.

Definition with_console_error (v : list string) (st : State) : State :=
  {| selected := selected st; svg := svg st; dark := dark st;
     copyStatus := copyStatus st; ref_current := ref_current st; cleanup := cleanup st;
     runs := runs st; mermaid_calls := mermaid_calls st;
     onRender_calls := onRender_calls st; downloads := downloads st;
     console_error := v; clipboard := clipboard st; class_dark := class_dark st;
     timers := timers st; now := now st |}.

Definition with_clipboard (v : option string) (st : State) : State :=
  {| selected := selected st; svg := svg st; dark := dark st;
     copyStatus := copyStatus st; ref_current := ref_current st; cleanup := cleanup st;
     runs := runs st; mermaid_calls := mermaid_calls st;
     onRender_calls := onRender_calls st; downloads := downloads st;
     console_error := console_error st; clipboard := v; class_dark := class_dark st;
     timers := timers st; now := now st |}.

Definition with_class_dark (v : bool) (st : State) : State :=
  {| selected := selected st; svg := svg st; dark := dark st;
     copyStatus := copyStatus st; ref_current := ref_current st; cleanup := cleanup st;
     runs := runs st; mermaid_calls := mermaid_calls st;
     onRender_calls := onRender_calls st; downloads := downloads st;
     console_error := console_error st; clipboard := clipboard st; class_dark := v;
     timers := timers st; now := now st |}.

Definition with_timers (v : list nat) (st : State) : State :=
  {| selected := selected st; svg := svg st; dark := dark st;
     copyStatus := copyStatus st; ref_current := ref_current st; cleanup := cleanup st;
     runs := runs st; mermaid_calls := mermaid_calls st;
     onRender_calls := onRender_calls st; downloads := downloads st;
     console_error := console_error st; clipboard := clipboard st;
     class_dark := class_dark st; timers := v; now := now st |}.

Definition with_now (v : nat) (st : State) : State :=
  {| selected := selected st; svg := svg st; dark := dark st;
     copyStatus := copyStatus st; ref_current := ref_current st; cleanup := cleanup st;
     runs := runs st; mermaid_calls := mermaid_calls st;
     onRender_calls := onRender_calls st; downloads := downloads st;
     console_error := console_error st; clipboard := clipboard st;
     class_dark := class_dark st; timers := timers st; now := v |}.

(** *** [initMermaid] *)

(** The options object built by [initMermaid]. *)
Definition mermaid_config (dark : bool) : Mermaid.Config :=
  {| Mermaid.startOnLoad := false;
     Mermaid.theme := if dark then "dark" else "default";
     Mermaid.securityLevel := "loose";
     Mermaid.flowchart_htmlLabels := true;
     Mermaid.flowchart_diagramPadding := 8;
     Mermaid.sequence_actorMargin := 30 |}.

Definition initMermaid (dark : bool) (st : State) : State :=
  with_mermaid_calls
    (mermaid_calls st ++ [Mermaid.initialize (mermaid_config dark)]) st.

(** *** [MermaidRenderer] *)

Fixpoint deactivate (tok : nat) (rs : list Run) : list Run :=
  match rs, tok with
  | [], _ => []
  | r :: rs', O => {| run_code := run_code r; active := false |} :: rs'
  | r :: rs', S k => r :: deactivate k rs'
  end.

(** The function returned by the effect: [active = false] in the closure of
    the run that returned it. *)
Definition run_cleanup (st : State) : State :=
  match cleanup st with
  | Some tok => with_cleanup None (with_runs (deactivate tok (runs st)) st)
  | None => st
  end.

(** The effect body, with [code] read from the props of the current
    render, that is [selected.code]. *)
Definition effect_MermaidRenderer (st : State) : State :=
  match ref_current st with
  | None => st
  | Some _ =>
      let tok := length (runs st) in
      let c := code (selected st) in
      with_cleanup (Some tok)
        (with_mermaid_calls (mermaid_calls st ++ [Mermaid.render tok c])
           (with_runs (runs st ++ [{| run_code := c; active := true |}])
              (with_ref_current (Some spinner) st)))
  end.

(** [setSvg], passed to the renderer as [onRender].  The re-render it
    causes changes neither [code] nor [dark], so no effect runs. *)
Definition setSvg (s : string) (st : State) : State := with_svg s st.

Definition onRender (s : string) (st : State) : State :=
  setSvg s (with_onRender_calls (onRender_calls st ++ [s]) st).

(** The [.then] handler of run [tok], called with [{ svg }]. *)
Definition render_then (tok : nat) (s : string) (st : State) : State :=
  match nth_error (runs st) tok with
  | None => st
  | Some r =>
      if negb (active r) then st
      else
        let st1 :=
          match ref_current st with
          | Some _ => with_ref_current (Some s) st
          | None => st
          end in
        onRender s st1
  end.

(** The [.catch] handler of run [tok]; [err] is [String(err)]. *)
Definition render_catch (tok : nat) (err : string) (st : State) : State :=
  match nth_error (runs st) tok with
  | None => st
  | Some r =>
      match ref_current st with
      | Some _ => with_ref_current (Some (error_panel err (run_code r))) st
      | None => st
      end
  end.

(** *** [App] *)

(** [setSelected(d)] and the render it causes.  React compares the
    renderer's dependency list [[code, onRender]] with the one of the
    previous render: [onRender] is always [setSvg], and [code] is a string,
    compared by value.  When it differs the previous run's cleanup is
    called and the effect runs again. *)
Definition setSelected (d : Diagram) (st : State) : State :=
  let st' := with_selected d st in
  if String.eqb (code d) (code (selected st)) then st'
  else effect_MermaidRenderer (run_cleanup st').

(** The effect of [App], dependency list [[dark]]. *)
Definition effect_App (st : State) : State :=
  let st1 := with_class_dark (dark st) st in
  let st2 := initMermaid (dark st1) st1 in
  setSelected (spread (selected st2)) st2.

(** [setDark((v) => !v)] and the render it causes: [code] is unchanged, so
    only the effect of [App] runs. *)
Definition toggleDark (st : State) : State :=
  effect_App (with_dark (negb (dark st)) st).

(** [copy]: [failure] is [None] when [navigator.clipboard.writeText]
    resolves and [Some e] when it rejects with [e]. *)
Definition copy (text : string) (failure : option string) (st : State)
  : bool * State :=
  match failure with
  | None => (true, with_clipboard (Some text) st)
  | Some e => (false, with_console_error (console_error st ++ [e]) st)
  end.

Definition handleCopy (failure : option string) (st : State) : State :=
  let (success, st1) := copy (code (selected st)) failure st in
  if success then
    with_timers (timers st1 ++ [now st1 + 2000]) (with_copyStatus "Copied!" st1)
  else st1.

(** The callback given to [setTimeout]. *)
Definition timeout_fires (st : State) : State := with_copyStatus "Copy Mermaid" st.

Definition is_due (t : nat) (deadline : nat) : bool := Nat.leb deadline t.

(** Time passes: the callbacks whose deadline is reached are called. *)
Definition elapse (ms : nat) (st : State) : State :=
  let t := now st + ms in
  let due := filter (is_due t) (timers st) in
  let later := filter (fun dl => negb (is_due t dl)) (timers st) in
  fold_left (fun s _ => timeout_fires s) due (with_now t (with_timers later st)).

(** [download] *)
Definition download (name : string) (svg : string) (st : State) : State :=
  with_downloads
    (downloads st ++
     [{| filename := name ++ ".svg"; mime := "image/svg+xml"; content := svg |}])
    st.

(** The export button: [disabled={!svg}] and its [onClick]. *)
Definition export_disabled (st : State) : bool := falsy (svg st).

Definition onClick_export (st : State) : State :=
  download (replace " "%char "_" (title (selected st))) (svg st) st.

(** The first render of [App]: initial cells, the div attached to [ref],
    then the effects, the child's before the parent's. *)
Definition initial : State :=
  {| selected := nth 0 diagrams OTO0;
     svg := EmptyString;
     dark := false;
     copyStatus := "Copy Mermaid";
     ref_current := Some EmptyString;
     cleanup := None;
     runs := [];
     mermaid_calls := [];
     onRender_calls := [];
     downloads := [];
     console_error := [];
     clipboard := None;
     class_dark := false;
     timers := [];
     now := 0 |}.

Definition mount : State := effect_App (effect_MermaidRenderer initial).

(** [App] leaves the page: cleanups run and the ref is detached. *)
Definition unmount (st : State) : State :=
  with_ref_current None (run_cleanup st).

Definition mounted (st : State) : bool :=
  match ref_current st with
  | Some _ => true
  | None => false
  end.

(** What the environment can deliver. *)
Inductive Event : Type :=
| SelectDiagram (d : Diagram)            (* a sidebar button: [onSelect(d)] *)
| ToggleTheme                            (* the theme button *)
| CopyClick (failure : option string)    (* the copy button, with the clipboard's answer *)
| ExportClick                            (* the export button *)
| Resolved (tok : nat) (svg : string)    (* [mermaid.render] of run [tok] fulfils *)
| Rejected (tok : nat) (err : string)    (* [mermaid.render] of run [tok] rejects *)
| Elapse (ms : nat)
| Unmount.

(** Clicks need the page; a click on a disabled button is not delivered. *)
Definition step (st : State) (e : Event) : State :=
  match e with
  | SelectDiagram d => if mounted st then setSelected d st else st
  | ToggleTheme => if mounted st then toggleDark st else st
  | CopyClick failure => if mounted st then handleCopy failure st else st
  | ExportClick =>
      if mounted st && negb (export_disabled st) then onClick_export st else st
  | Resolved tok s => render_then tok s st
  | Rejected tok err => render_catch tok err st
  | Elapse ms => elapse ms st
  | Unmount => unmount st
  end.

Definition run_events (es : list Event) (st : State) : State :=
  fold_left step es st.

(** Observations used in the statements. *)
Definition render_calls (st : State) : list Mermaid.Call :=
  filter Mermaid.is_render (mermaid_calls st).

Definition innerHTML (st : State) : option string := ref_current st.


(** Every live run is the one whose cleanup React still holds, and that
    run is the latest. *)
Definition live_is_last (st : State) : Prop :=
  forall tok r,
    nth_error (runs st) tok = Some r -> active r = true ->
    cleanup st = Some tok /\ S tok = length (runs st).

(* ================================================================== *)
(** ** What [Sidebar] and [App] render *)

Module View.

(** A sidebar [<button>]: the [key] of its [<li>], its [className], its
    text and the entry its [onClick] passes to [onSelect]. *)
Record Button : Type := mkButton {
  key : string;
  className : string;
  text : string;
  onClick_arg : Diagram
}.

(** A group's [<div>]: its [key], its heading and its buttons. *)
Record Panel : Type := mkPanel {
  panel_key : string;
  heading : string;
  buttons : list Button
}.

(** The template literal of the button's [className]; [current] is
    [currentId === d.id]. *)
Definition button_class (current : bool) : string :=
  "w-full rounded-xl px-3 py-2 text-left text-sm transition-colors duration-200 " ++
  (if current then "bg-blue-600 text-white shadow-md"
   else "hover:bg-gray-100 dark:hover:bg-gray-800").

Definition button (currentId : string) (d : Diagram) : Button :=
  {| key := id d;
     className := button_class (String.eqb currentId (id d));
     text := title d;
     onClick_arg := d |}.

(** The JSX returned by [Sidebar]. *)
Definition Sidebar (items : list Diagram) (currentId : string) : list Panel :=
  map (fun '(g, ds) =>
         {| panel_key := g; heading := g; buttons := map (button currentId) ds |})
      (Sidebar.groups items).

(** Every button of the sidebar, top to bottom. *)
Definition all_buttons (ps : list Panel) : list Button :=
  concat (map buttons ps).

(** Does the button carry the classes of the current entry? *)
Definition highlighted (b : Button) : bool :=
  String.eqb (className b) (button_class true).

(** [<Sidebar items={diagrams} currentId={selected.id} ... />] in [App]. *)
Definition App_sidebar (st : State) : list Panel :=
  Sidebar diagrams (id (selected st)).

(** The text of the theme button. *)
Definition theme_button_text (st : State) : string :=
  if dark st then "Light Mode" else "Dark Mode".

End View.

(* ================================================================== *)
(** ** Notions used to state the invariants *)

(** Number of occurrences of [c] in [s]. *)
Fixpoint count_char (c : ascii) (s : string) : nat :=
  match s with
  | EmptyString => 0
  | String a s' => (if Ascii.eqb a c then 1 else 0) + count_char c s'
  end.

(** The configurations the engine was given, oldest first. *)
Definition configs (cs : list Mermaid.Call) : list Mermaid.Config :=
  flat_map (fun c => match c with
                     | Mermaid.initialize cfg => [cfg]
                     | Mermaid.render _ _ => []
                     end) cs.

(** The arguments of the render calls the engine received, oldest first. *)
Definition render_args (cs : list Mermaid.Call) : list (nat * string) :=
  flat_map (fun c => match c with
                     | Mermaid.render tok text => [(tok, text)]
                     | Mermaid.initialize _ => []
                     end) cs.

(** One render call per run, in order, each with the run's own source. *)
Definition one_call_per_run (st : State) : Prop :=
  render_args (mermaid_calls st) =
  combine (seq 0 (length (runs st))) (map run_code (runs st)).

(** The document class and the engine's latest configuration follow the
    [dark] cell. *)
Definition theme_synced (st : State) : Prop :=
  class_dark st = dark st /\
  exists earlier, configs (mermaid_calls st) = (earlier ++ [mermaid_config (dark st)])%list.

(** While the view is mounted, the run whose cleanup React holds is live,
    closes over the selected source, and its render call was made. *)
Definition live_current (st : State) : Prop :=
  forall h, ref_current st = Some h ->
  exists tok,
    cleanup st = Some tok /\
    nth_error (runs st) tok =
      Some {| run_code := code (selected st); active := true |} /\
    In (Mermaid.render tok (code (selected st))) (mermaid_calls st).

(** Pending timeouts are due within 2000 ms, and the acknowledgment is
    shown only while one is pending. *)
Definition timers_ok (st : State) : Prop :=
  Forall (fun dl => dl <= now st + 2000) (timers st) /\
  (timers st = [] -> copyStatus st = "Copy Mermaid").

(** The stored artifact is the argument of the latest [onRender] call. *)
Definition svg_is_last_onRender (st : State) : Prop :=
  svg st = last (onRender_calls st) EmptyString.

(** A view that was unmounted: no ref, no cleanup held, no live run. *)
Definition torn_down (st : State) : Prop :=
  ref_current st = None /\ cleanup st = None /\
  forall tok r, nth_error (runs st) tok = Some r -> active r = false.

(** Two states that differ at most in the copy label, the pending timeouts
    and the clock. *)
Definition same_but_clock (st st' : State) : Prop :=
  selected st' = selected st /\ svg st' = svg st /\ dark st' = dark st /\
  ref_current st' = ref_current st /\ cleanup st' = cleanup st /\
  runs st' = runs st /\ mermaid_calls st' = mermaid_calls st /\
  onRender_calls st' = onRender_calls st /\ downloads st' = downloads st /\
  console_error st' = console_error st /\ clipboard st' = clipboard st /\
  class_dark st' = class_dark st.

(* ================================================================== *)
(** ** Facts about [replace] and the escaping *)

Lemma append_assoc (a b c : string) : (a ++ b) ++ c = a ++ (b ++ c).
Proof. induction a as [|x a IH]; simpl; [reflexivity | now rewrite IH]. Qed.

Lemma append_nil_r (a : string) : a ++ EmptyString = a.
Proof. induction a as [|x a IH]; simpl; [reflexivity | now rewrite IH]. Qed.

Lemma length_append (a b : string) :
  String.length (a ++ b) = String.length a + String.length b.
Proof. induction a as [|x a IH]; simpl; [reflexivity | now rewrite IH]. Qed.

Section ReplaceFacts.

Variables (c : ascii) (r : string).

Lemma replace_app (a b : string) :
  replace c r (a ++ b) = replace c r a ++ replace c r b.
Proof.
  induction a as [|x a IH]; simpl; [reflexivity|].
  destruct (Ascii.eqb x c); simpl; rewrite IH; [|reflexivity].
  now rewrite append_assoc.
Qed.

Lemma replace_absent (s : string) :
  occurs c s = false -> replace c r s = s.
Proof.
  induction s as [|x s IH]; simpl; [reflexivity|].
  destruct (Ascii.eqb x c); simpl; [discriminate|].
  intros H. now rewrite IH.
Qed.

Lemma occurs_app (a b : string) :
  occurs c (a ++ b) = occurs c a || occurs c b.
Proof.
  induction a as [|x a IH]; simpl; [reflexivity|].
  now rewrite IH, orb_assoc.
Qed.

Lemma occurs_replace (s : string) :
  occurs c r = false -> occurs c (replace c r s) = false.
Proof.
  intros Hr. induction s as [|x s IH]; simpl; [reflexivity|].
  destruct (Ascii.eqb x c) eqn:E; simpl.
  - now rewrite occurs_app, Hr, IH.
  - now rewrite E, IH.
Qed.

End ReplaceFacts.

Lemma safeCode_cons (c : ascii) (s : string) :
  safeCode (String c s) = escape_char c ++ safeCode s.
Proof.
  unfold safeCode, escape_char.
  cbn [replace].
  destruct (Ascii.eqb c "&") eqn:Eamp; [reflexivity|].
  cbn [replace].
  destruct (Ascii.eqb c "<") eqn:Elt; [reflexivity|].
  cbn [replace].
  destruct (Ascii.eqb c ">") eqn:Egt; reflexivity.
Qed.

Lemma safeCode_escape_chars (s : string) : safeCode s = escape_chars s.
Proof.
  induction s as [|c s IH]; [reflexivity|].
  rewrite safeCode_cons. simpl. now rewrite IH.
Qed.

Lemma unescape_escape_chars (s : string) : unescape (escape_chars s) = s.
Proof.
  induction s as [|c s IH]; [reflexivity|].
  simpl. unfold escape_char.
  destruct (Ascii.eqb c "&") eqn:Eamp.
  { apply Ascii.eqb_eq in Eamp. subst c. simpl. now rewrite IH. }
  destruct (Ascii.eqb c "<") eqn:Elt.
  { apply Ascii.eqb_eq in Elt. subst c. simpl. now rewrite IH. }
  destruct (Ascii.eqb c ">") eqn:Egt.
  { apply Ascii.eqb_eq in Egt. subst c. simpl. now rewrite IH. }
  simpl. now rewrite Eamp, IH.
Qed.

Lemma safeCode_no_angle (s : string) :
  occurs "<"%char (safeCode s) = false /\ occurs ">"%char (safeCode s) = false.
Proof.
  induction s as [|c s [IHl IHg]]; [split; reflexivity|].
  rewrite safeCode_cons, !occurs_app, IHl, IHg, !orb_false_r.
  unfold escape_char.
  destruct (Ascii.eqb c "&"); [split; reflexivity|].
  destruct (Ascii.eqb c "<") eqn:Elt; [split; reflexivity|].
  destruct (Ascii.eqb c ">") eqn:Egt; [split; reflexivity|].
  simpl. now rewrite Elt, Egt.
Qed.

(** The order of the three passes matters: with [<] replaced first, the
    ampersand pass would escape the entity again. *)
Example ampersand_last_escapes_twice :
  replace "&"%char "&amp;" (replace "<"%char "&lt;" "<") = "&amp;lt;".
Proof. reflexivity. Qed.

(** C10: [safeCode] replaces [&] first, so it is the character-by-character
    escaping (no entity is escaped twice); its output holds no raw [<] or
    [>]; and it is injective, the source being recovered by [unescape]. *)
Theorem safeCode_no_markup_and_injective :
  (forall code, safeCode code = escape_chars code) /\
  (forall code,
     occurs "<"%char (safeCode code) = false /\
     occurs ">"%char (safeCode code) = false) /\
  (forall code, unescape (safeCode code) = code) /\
  (forall a b, safeCode a = safeCode b -> a = b).
Proof.
  split; [exact safeCode_escape_chars|].
  split; [exact safeCode_no_angle|].
  assert (Hinv : forall code, unescape (safeCode code) = code).
  { intros code. rewrite safeCode_escape_chars. apply unescape_escape_chars. }
  split; [exact Hinv|].
  intros a b Hab.
  rewrite <- (Hinv a), <- (Hinv b). now rewrite Hab.
Qed.

Lemma safeCode_no_markup_and_injective_witness :
  safeCode "a<b&c" = "a&lt;b&amp;c" /\ "a<b&c" = "a<b&c".
Proof.
  split; [reflexivity|].
  apply (proj2 (proj2 (proj2 safeCode_no_markup_and_injective))).
  reflexivity.
Defined.

(* ================================================================== *)
(** ** The export file name *)

Section SpacesToUnderscores.

Variable t : string.

Lemma stem_no_space : occurs " "%char (replace " "%char "_" t) = false.
Proof. apply occurs_replace. reflexivity. Qed.

Lemma stem_length :
  String.length (replace " "%char "_" t) = String.length t.
Proof.
  induction t as [|x u IH]; simpl; [reflexivity|].
  destruct (Ascii.eqb x " "); simpl; now rewrite IH.
Qed.

Lemma stem_get (i : nat) :
  String.get i (replace " "%char "_" t) =
  option_map (fun c => if Ascii.eqb c " "%char then "_"%char else c)
             (String.get i t).
Proof.
  revert i. induction t as [|x u IH]; intros i; simpl; [reflexivity|].
  destruct (Ascii.eqb x " ") eqn:E; simpl; destruct i as [|i]; simpl;
    try rewrite E; try reflexivity; apply IH.
Qed.

End SpacesToUnderscores.

(* ================================================================== *)
(** ** The sidebar's grouping *)

Section SidebarFacts.

Import Sidebar.
Local Open Scope list_scope.

Lemma has_spec (m : JsMap) (k : string) :
  has m k = true <-> In k (map fst m).
Proof.
  induction m as [|[k' v] m IH]; simpl.
  - split; [discriminate | tauto].
  - rewrite orb_true_iff, IH, String.eqb_eq. tauto.
Qed.

Lemma has_false (m : JsMap) (k : string) :
  has m k = false <-> ~ In k (map fst m).
Proof.
  rewrite <- has_spec. destruct (has m k); split; congruence.
Qed.

Lemma set_absent (m : JsMap) (k : string) (v : list Diagram) :
  has m k = false -> set m k v = (m ++ [(k, v)])%list.
Proof.
  induction m as [|[k' v'] m IH]; simpl; [reflexivity|].
  intros H. apply orb_false_iff in H as [Hk Hm].
  rewrite Hk. now rewrite IH.
Qed.

Lemma get_push_last (m : JsMap) (k : string) (v : list Diagram) (d : Diagram) :
  has m k = false ->
  get_push (m ++ [(k, v)]) k d = (m ++ [(k, (v ++ [d])%list)])%list.
Proof.
  induction m as [|[k' v'] m IH]; simpl.
  - now rewrite String.eqb_refl.
  - intros H. apply orb_false_iff in H as [Hk Hm].
    rewrite Hk. now rewrite IH.
Qed.

Lemma first_occurrences_in (l : list string) (x : string) :
  In x (first_occurrences l) <-> In x l.
Proof.
  induction l as [|a l IH]; simpl; [tauto|].
  rewrite filter_In, IH, negb_true_iff, String.eqb_neq.
  destruct (String.eqb_spec a x) as [->|Hne]; [tauto|].
  split; [tauto|]. intros [H|H]; [tauto|]. right. split; [exact H|congruence].
Qed.

Lemma first_occurrences_nodup (l : list string) : NoDup (first_occurrences l).
Proof.
  induction l as [|a l IH]; simpl; constructor.
  - rewrite filter_In, String.eqb_refl. intros [_ H]. discriminate.
  - now apply NoDup_filter.
Qed.

Lemma first_occurrences_snoc (l : list string) (x : string) :
  first_occurrences (l ++ [x]) =
  if existsb (String.eqb x) l then first_occurrences l
  else (first_occurrences l ++ [x])%list.
Proof.
  induction l as [|a l IH]; simpl; [reflexivity|].
  rewrite IH. destruct (existsb (String.eqb x) l).
  - now rewrite orb_true_r.
  - rewrite orb_false_r, filter_app. simpl.
    destruct (String.eqb x a); simpl; [now rewrite app_nil_r | reflexivity].
Qed.

Lemma existsb_eqb_in (x : string) (l : list string) :
  existsb (String.eqb x) l = true <-> In x l.
Proof.
  rewrite existsb_exists. split.
  - intros [y [Hy E]]. apply String.eqb_eq in E. now subst.
  - intros H. exists x. split; [exact H | apply String.eqb_refl].
Qed.

Lemma members_snoc (k : string) (items : list Diagram) (d : Diagram) :
  members k (items ++ [d]) =
  (members k items ++ if String.eqb (group d) k then [d] else [])%list.
Proof. unfold members. now rewrite filter_app. Qed.

Lemma members_nil (k : string) (items : list Diagram) :
  ~ In k (map group items) -> members k items = [].
Proof.
  induction items as [|a items IH]; simpl; [reflexivity|].
  intros H. destruct (String.eqb_spec (group a) k) as [E|_]; [tauto|].
  apply IH. tauto.
Qed.

(** Pushing onto the group of [d] in a map whose keys are distinct is the
    pointwise extension of every member list by [d]. *)
Lemma get_push_members (items : list Diagram) (d : Diagram) (keys : list string) :
  NoDup keys ->
  get_push (map (fun k => (k, members k items)) keys) (group d) d =
  map (fun k => (k, members k (items ++ [d]))) keys.
Proof.
  induction keys as [|k keys IH]; intros Hnd; simpl; [reflexivity|].
  inversion Hnd as [|? ? Hnotin Hnd']; subst.
  rewrite members_snoc.
  destruct (String.eqb_spec k (group d)) as [->|Hne].
  - rewrite String.eqb_refl. f_equal.
    apply map_ext_in. intros k Hk. rewrite members_snoc.
    destruct (String.eqb_spec (group d) k) as [<-|_]; [tauto|].
    now rewrite app_nil_r.
  - destruct (String.eqb_spec (group d) k) as [E|_]; [congruence|].
    rewrite app_nil_r. f_equal. now apply IH.
Qed.

Lemma visit_grouping_spec (items : list Diagram) (d : Diagram) :
  visit (grouping_spec items) d = grouping_spec (items ++ [d]).
Proof.
  unfold visit, grouping_spec.
  rewrite map_app. simpl. rewrite first_occurrences_snoc.
  set (keys := first_occurrences (map group items)).
  assert (Hkeys : map fst (map (fun k => (k, members k items)) keys) = keys).
  { rewrite map_map. simpl. apply map_id. }
  destruct (existsb (String.eqb (group d)) (map group items)) eqn:E.
  - apply existsb_eqb_in in E.
    assert (Hhas : has (map (fun k => (k, members k items)) keys) (group d) = true).
    { apply has_spec. rewrite Hkeys. now apply first_occurrences_in. }
    rewrite Hhas. simpl.
    apply get_push_members, first_occurrences_nodup.
  - assert (Hnot : ~ In (group d) (map group items)).
    { rewrite <- existsb_eqb_in. congruence. }
    assert (Hhas : has (map (fun k => (k, members k items)) keys) (group d) = false).
    { apply has_false. rewrite Hkeys. unfold keys.
      now rewrite first_occurrences_in. }
    rewrite Hhas. simpl.
    rewrite set_absent, get_push_last by exact Hhas.
    rewrite map_app. simpl. f_equal.
    + apply map_ext_in. intros k Hk. rewrite members_snoc.
      destruct (String.eqb_spec (group d) k) as [<-|_].
      * exfalso. apply Hnot. now apply first_occurrences_in.
      * now rewrite app_nil_r.
    + rewrite members_snoc, members_nil, String.eqb_refl by exact Hnot.
      reflexivity.
Qed.

Lemma groups_snoc (items : list Diagram) (d : Diagram) :
  groups (items ++ [d]) = visit (groups items) d.
Proof. unfold groups. now rewrite fold_left_app. Qed.

(** The loop computes the reference grouping. *)
Lemma groups_grouping_spec (items : list Diagram) :
  groups items = grouping_spec items.
Proof.
  induction items as [|d items IH] using rev_ind; [reflexivity|].
  now rewrite groups_snoc, IH, visit_grouping_spec.
Qed.

Lemma groups_keys (items : list Diagram) :
  map fst (groups items) = first_occurrences (map group items).
Proof.
  rewrite groups_grouping_spec. unfold grouping_spec.
  rewrite map_map. simpl. apply map_id.
Qed.

Lemma groups_entry (items : list Diagram) (g : string) (ds : list Diagram) :
  In (g, ds) (groups items) ->
  In g (map group items) /\ ds = members g items.
Proof.
  rewrite groups_grouping_spec. unfold grouping_spec.
  rewrite in_map_iff. intros [k [E Hk]]. inversion E; subst.
  split; [now apply first_occurrences_in | reflexivity].
Qed.

(** One loop iteration adds exactly the visited entry. *)
Lemma flatten_get_push (m : JsMap) (k : string) (d : Diagram) :
  has m k = true -> Permutation (flatten (get_push m k d)) (d :: flatten m).
Proof.
  unfold flatten.
  induction m as [|[k' v] m IH]; simpl; [discriminate|].
  destruct (String.eqb k' k); simpl.
  - intros _. rewrite <- app_assoc. simpl.
    apply Permutation_sym, Permutation_middle.
  - intros H. specialize (IH H).
    apply Permutation_trans with (v ++ d :: concat (map snd m))%list.
    + now apply Permutation_app_head.
    + apply Permutation_sym, Permutation_middle.
Qed.

Lemma flatten_visit (m : JsMap) (d : Diagram) :
  Permutation (flatten (visit m d)) (d :: flatten m).
Proof.
  unfold visit. destruct (has m (group d)) eqn:E; simpl.
  - now apply flatten_get_push.
  - rewrite set_absent, get_push_last by exact E.
    unfold flatten. rewrite !map_app, !concat_app. simpl.
    apply Permutation_sym, Permutation_cons_append.
Qed.

Lemma flatten_groups (items : list Diagram) :
  Permutation (flatten (groups items)) items.
Proof.
  induction items as [|d items IH] using rev_ind; [constructor|].
  rewrite groups_snoc.
  apply Permutation_trans with (d :: items).
  - apply Permutation_trans with (d :: flatten (groups items)).
    + apply flatten_visit.
    + now constructor.
  - apply Permutation_cons_append.
Qed.

End SidebarFacts.

(** C7: the sidebar's groups are keyed by the group labels in order of
    first occurrence in the catalog, each group holding the entries with
    that label in catalog order; a catalog [A; B; C] where [A] and [B]
    share a label that [C] does not have yields exactly the two groups
    [A; B] then [C]. *)
Theorem sidebar_groups_first_occurrence_order :
  (forall items,
     Sidebar.groups items =
     map (fun g => (g, filter (fun d => String.eqb (group d) g) items))
         (Sidebar.first_occurrences (map group items))) /\
  (forall A B C,
     group A = group B -> group C <> group A ->
     Sidebar.groups [A; B; C] = [(group A, [A; B]); (group C, [C])]).
Proof.
  split.
  - intros items. apply groups_grouping_spec.
  - intros A B C HAB HC.
    rewrite groups_grouping_spec.
    unfold Sidebar.grouping_spec, Sidebar.members. simpl.
    rewrite <- HAB.
    assert (E1 : String.eqb (group C) (group A) = false)
      by now apply String.eqb_neq.
    assert (E2 : String.eqb (group A) (group C) = false)
      by (apply String.eqb_neq; congruence).
    repeat (rewrite ?String.eqb_refl, ?E1, ?E2; simpl).
    reflexivity.
Qed.

Lemma sidebar_groups_first_occurrence_order_witness :
  Sidebar.groups [OTO0; OTO1; OTO3] =
  [("Otomato Platform", [OTO0; OTO1]); ("Strategy & Growth", [OTO3])].
Proof.
  apply (proj2 sidebar_groups_first_occurrence_order OTO0 OTO1 OTO3).
  - reflexivity.
  - discriminate.
Defined.

(** C9: the grouping is a partition of the input: group keys are pairwise
    distinct, no group is empty, every member of a group is an input entry
    whose own [group] field is the key, every input entry is in the group
    of its label, and all groups together are a reordering of the input. *)
Theorem sidebar_groups_partition (items : list Diagram) :
  NoDup (map fst (Sidebar.groups items)) /\
  (forall g ds,
     In (g, ds) (Sidebar.groups items) ->
     ds <> [] /\ forall d, In d ds -> In d items /\ group d = g) /\
  (forall d,
     In d items ->
     exists ds, In (group d, ds) (Sidebar.groups items) /\ In d ds) /\
  Permutation (concat (map snd (Sidebar.groups items))) items.
Proof.
  split; [rewrite groups_keys; apply first_occurrences_nodup|].
  split; [|split; [|apply flatten_groups]].
  - intros g ds Hin. apply groups_entry in Hin as [Hg ->].
    unfold Sidebar.members. split.
    + apply in_map_iff in Hg as [d [Hd Hin]].
      intros Hnil.
      assert (Hmem : In d (filter (fun d0 => String.eqb (group d0) g) items)).
      { apply filter_In. split; [exact Hin | now apply String.eqb_eq]. }
      rewrite Hnil in Hmem. exact Hmem.
    + intros d Hd. apply filter_In in Hd as [Hd E].
      split; [exact Hd | now apply String.eqb_eq].
  - intros d Hd. exists (Sidebar.members (group d) items). split.
    + rewrite groups_grouping_spec. unfold Sidebar.grouping_spec.
      apply in_map_iff. exists (group d). split; [reflexivity|].
      apply first_occurrences_in, in_map, Hd.
    + apply filter_In. split; [exact Hd | apply String.eqb_refl].
Qed.

(* ================================================================== *)
(** ** The state machine: frame facts *)

Lemma spread_eq (d : Diagram) : spread d = d.
Proof. now destruct d. Qed.


Lemma mounted_ref (st : State) :
  mounted st = true <-> exists h, ref_current st = Some h.
Proof.
  unfold mounted. destruct (ref_current st) as [h|].
  - split; [now exists h | reflexivity].
  - split; [discriminate | intros [h H]; discriminate].
Qed.

(** Firing any number of timeouts is firing one, or none. *)
Lemma fire_all (due : list nat) (st : State) :
  fold_left (fun s _ => timeout_fires s) due st =
  match due with
  | [] => st
  | _ :: _ => timeout_fires st
  end.
Proof.
  revert st. induction due as [|t due IH]; intros st; simpl; [reflexivity|].
  rewrite IH. now destruct due.
Qed.

Lemma elapse_eq (ms : nat) (st : State) :
  elapse ms st =
  let t := now st + ms in
  let st1 :=
    with_now t
      (with_timers (filter (fun dl => negb (is_due t dl)) (timers st)) st) in
  match filter (is_due t) (timers st) with
  | [] => st1
  | _ :: _ => timeout_fires st1
  end.
Proof. unfold elapse. cbv zeta. apply fire_all. Qed.

(** Selecting an entry whose source equals the current one only replaces
    the [selected] cell. *)
Lemma setSelected_same_code (d : Diagram) (st : State) :
  code d = code (selected st) -> setSelected d st = with_selected d st.
Proof. unfold setSelected. intros ->. now rewrite String.eqb_refl. Qed.

Lemma setSelected_new_code (d : Diagram) (st : State) (h : string) :
  code d <> code (selected st) -> ref_current st = Some h ->
  setSelected d st =
  with_cleanup (Some (length (runs st)))
    (with_mermaid_calls
       (mermaid_calls st ++ [Mermaid.render (length (runs st)) (code d)])
       (with_runs
          (match cleanup st with
           | Some tok => deactivate tok (runs st)
           | None => runs st
           end ++ [{| run_code := code d; active := true |}])
          (with_ref_current (Some spinner) (with_selected d st)))).
Proof.
  intros Hne Href. unfold setSelected.
  apply String.eqb_neq in Hne. rewrite Hne.
  unfold effect_MermaidRenderer, run_cleanup.
  assert (Hlen : forall tok, length (deactivate tok (runs st)) = length (runs st)).
  { intros tok. revert tok. induction (runs st) as [|r rs IH]; intros [|k]; simpl;
      try reflexivity. now rewrite IH. }
  simpl. destruct (cleanup st) as [tok|]; simpl; rewrite Href; simpl.
  - now rewrite Hlen.
  - reflexivity.
Qed.

Lemma toggleDark_eq (st : State) :
  toggleDark st =
  with_mermaid_calls
    (mermaid_calls st ++ [Mermaid.initialize (mermaid_config (negb (dark st)))])
    (with_class_dark (negb (dark st)) (with_dark (negb (dark st)) st)).
Proof.
  unfold toggleDark, effect_App. cbv zeta.
  rewrite setSelected_same_code.
  - rewrite spread_eq. now destruct st.
  - now rewrite spread_eq.
Qed.

Lemma render_catch_mounted (st : State) (tok : nat) (r : Run) (err h : string) :
  ref_current st = Some h -> nth_error (runs st) tok = Some r ->
  render_catch tok err st =
  with_ref_current (Some (error_panel err (run_code r))) st.
Proof. unfold render_catch. now intros -> ->. Qed.

Lemma render_then_stale (st : State) (tok : nat) (r : Run) (s : string) :
  nth_error (runs st) tok = Some r -> active r = false ->
  render_then tok s st = st.
Proof. unfold render_then. now intros -> ->. Qed.

(** Every step either keeps the [svg] cell or is the fulfilment of a render
    promise with the value now stored. *)
Lemma svg_step (st : State) (e : Event) :
  svg (step st e) = svg st \/ exists tok, e = Resolved tok (svg (step st e)).
Proof.
  destruct e as [d| |failure| |tok s|tok err|ms|]; simpl.
  - left. destruct (mounted st); [|reflexivity].
    unfold setSelected, effect_MermaidRenderer, run_cleanup.
    destruct (String.eqb (code d) (code (selected st))); [reflexivity|].
    simpl. destruct (cleanup st); simpl; destruct (ref_current st); reflexivity.
  - left. destruct (mounted st); [|reflexivity]. now rewrite toggleDark_eq.
  - left. destruct (mounted st); [|reflexivity]. now destruct failure.
  - left. now destruct (mounted st && negb (export_disabled st)).
  - unfold render_then.
    destruct (nth_error (runs st) tok) as [r|]; [|now left].
    destruct (active r); simpl; [|now left].
    right. exists tok. now destruct (ref_current st).
  - left. unfold render_catch.
    destruct (nth_error (runs st) tok); [|reflexivity].
    now destruct (ref_current st).
  - left. rewrite elapse_eq. cbv zeta.
    now destruct (filter (is_due (now st + ms)) (timers st)).
  - left. unfold unmount, run_cleanup. now destruct (cleanup st).
Qed.

Lemma svg_run_events (es : list Event) (st : State) :
  svg (run_events es st) = svg st \/
  exists tok, In (Resolved tok (svg (run_events es st))) es.
Proof.
  revert st. induction es as [|e es IH]; intros st; simpl; [now left|].
  destruct (IH (step st e)) as [E|[tok Hin]].
  - rewrite E. destruct (svg_step st e) as [E'|[tok E']].
    + now left.
    + right. exists tok. left. now rewrite <- E'.
  - right. exists tok. now right.
Qed.



Lemma deactivate_length (tok : nat) (rs : list Run) :
  length (deactivate tok rs) = length rs.
Proof.
  revert tok. induction rs as [|r rs IH]; intros [|k]; simpl; try reflexivity.
  now rewrite IH.
Qed.

Lemma nth_error_snoc {A : Type} (l : list A) (x : A) (n : nat) :
  n = length l -> nth_error (l ++ [x]) n = Some x.
Proof.
  intros ->. rewrite nth_error_app2 by lia. now rewrite Nat.sub_diag.
Qed.

(** The run started by selecting a new source is the last one, it closes
    over that source, and it is live. *)
Lemma setSelected_run (d : Diagram) (st : State) (h : string) :
  code d <> code (selected st) -> ref_current st = Some h ->
  nth_error (runs (setSelected d st)) (length (runs st)) =
  Some {| run_code := code d; active := true |}.
Proof.
  intros Hne Href. rewrite (setSelected_new_code d st h Hne Href). simpl.
  apply nth_error_snoc. destruct (cleanup st); [|reflexivity].
  now rewrite deactivate_length.
Qed.

(* ================================================================== *)
(** ** The rendering lifecycle *)

(** C2: when the engine rejects a render, the mounted view shows the error
    panel made of the engine's message and the source of that render with
    [&], [<] and [>] escaped, [onRender] is not called and the [svg] cell
    keeps its value; in particular this is what follows the selection of an
    entry whose source the engine rejects. *)
Theorem rejected_render_shows_escaped_source :
  (forall st tok r err h,
     ref_current st = Some h -> nth_error (runs st) tok = Some r ->
     innerHTML (step st (Rejected tok err)) =
       Some (panel_head ++ err ++ panel_mid ++
             escape_chars (run_code r) ++ panel_tail)%string /\
     onRender_calls (step st (Rejected tok err)) = onRender_calls st /\
     svg (step st (Rejected tok err)) = svg st) /\
  (forall st d err h,
     ref_current st = Some h -> code d <> code (selected st) ->
     forall st2,
     st2 = step (step st (SelectDiagram d)) (Rejected (length (runs st)) err) ->
     innerHTML st2 =
       Some (panel_head ++ err ++ panel_mid ++
             escape_chars (code d) ++ panel_tail)%string /\
     onRender_calls st2 = onRender_calls st /\
     svg st2 = svg st).
Proof.
  split.
  - intros st tok r err h Href Hrun. simpl.
    rewrite (render_catch_mounted st tok r err h Href Hrun).
    unfold innerHTML, error_panel. simpl.
    now rewrite safeCode_escape_chars.
  - intros st d err h Href Hne st2 ->. simpl.
    assert (Hm : mounted st = true) by (apply mounted_ref; now exists h).
    rewrite Hm.
    pose proof (setSelected_run d st h Hne Href) as Hrun.
    assert (Href' : ref_current (setSelected d st) = Some spinner).
    { now rewrite (setSelected_new_code d st h Hne Href). }
    rewrite (render_catch_mounted _ _ _ err _ Href' Hrun).
    unfold innerHTML, error_panel. simpl.
    rewrite safeCode_escape_chars.
    rewrite (setSelected_new_code d st h Hne Href). simpl.
    repeat split.
Qed.

Lemma rejected_render_shows_escaped_source_witness :
  innerHTML (run_events [SelectDiagram OTO1; Rejected 1 "Parse error"] mount) =
    Some (panel_head ++ "Parse error" ++ panel_mid ++
          escape_chars (code OTO1) ++ panel_tail)%string /\
  svg (run_events [SelectDiagram OTO1; Rejected 1 "Parse error"] mount) =
    svg mount.
Proof.
  pose proof (proj2 rejected_render_shows_escaped_source
                mount OTO1 "Parse error" spinner) as H.
  specialize (H eq_refl).
  assert (Hne : code OTO1 <> code (selected mount)) by discriminate.
  specialize (H Hne _ eq_refl).
  destruct H as [H1 [_ H3]]. split; [exact H1 | exact H3].
Defined.

(** C1 (the code departs from it): a render that was superseded by a later
    one and then rejects still writes its error panel into the view, over
    the later render's output: the [.catch] handler does not test
    [active]. *)
Theorem stale_rejection_overwrites_view :
  (forall st tok r err h,
     ref_current st = Some h -> nth_error (runs st) tok = Some r ->
     active r = false ->
     innerHTML (step st (Rejected tok err)) =
       Some (error_panel err (run_code r))) /\
  (let st := run_events [SelectDiagram OTO1; Resolved 1 "<svg>B</svg>"] mount in
   selected st = OTO1 /\
   nth_error (runs st) 0 = Some {| run_code := code OTO0; active := false |} /\
   innerHTML st = Some "<svg>B</svg>" /\
   innerHTML (step st (Rejected 0 "Parse error")) =
     Some (error_panel "Parse error" (code OTO0))).
Proof.
  split.
  - intros st tok r err h Href Hrun _. simpl.
    now rewrite (render_catch_mounted st tok r err h Href Hrun).
  - cbv zeta. repeat split.
Qed.

(** A stale fulfilment, by contrast, is dropped. *)
Lemma inactive_fulfilment_ignored (st : State) (tok : nat) (r : Run) (s : string) :
  nth_error (runs st) tok = Some r -> active r = false ->
  step st (Resolved tok s) = st.
Proof. intros Hrun Hact. simpl. now apply (render_then_stale st tok r). Qed.

(** C3 (the code departs from it): toggling the theme reconfigures the
    engine and issues no render call at all; the renderer's effect does not
    run because [code] is the same string and [onRender] the same function. *)
Theorem theme_toggle_issues_no_render :
  (forall st,
     mounted st = true ->
     dark (step st ToggleTheme) = negb (dark st) /\
     mermaid_calls (step st ToggleTheme) =
       (mermaid_calls st ++
        [Mermaid.initialize (mermaid_config (negb (dark st)))])%list) /\
  (forall st,
     render_calls (step st ToggleTheme) = render_calls st /\
     runs (step st ToggleTheme) = runs st /\
     innerHTML (step st ToggleTheme) = innerHTML st) /\
  mermaid_calls (step mount ToggleTheme) =
    [Mermaid.render 0 (code OTO0);
     Mermaid.initialize (mermaid_config false);
     Mermaid.initialize (mermaid_config true)] /\
  length (render_calls (step mount ToggleTheme)) = length (render_calls mount).
Proof.
  split; [|split; [|split; reflexivity]].
  - intros st Hm. simpl. rewrite Hm, toggleDark_eq. split; reflexivity.
  - intros st. simpl. destruct (mounted st); [|repeat split].
    rewrite toggleDark_eq. unfold render_calls, innerHTML. simpl.
    rewrite filter_app. simpl. rewrite app_nil_r. repeat split.
Qed.




(* ================================================================== *)
(** ** Export *)

Lemma falsy_spec (s : string) : falsy s = true <-> s = EmptyString.
Proof. destruct s; simpl; split; congruence. Qed.

(** C5: the application starts on the first catalog entry with an empty
    artifact and the export button disabled; whenever the artifact is empty
    the button is disabled and a click on it changes nothing, so nothing is
    downloaded; and the button is enabled only when the stored artifact is
    the non-empty result of a render that succeeded. *)
Theorem export_disabled_while_no_artifact :
  (hd_error diagrams = Some (selected mount) /\
   svg mount = EmptyString /\
   export_disabled mount = true) /\
  (forall st,
     svg st = EmptyString ->
     export_disabled st = true /\ step st ExportClick = st) /\
  (forall es st,
     st = run_events es mount ->
     export_disabled st = false ->
     svg st <> EmptyString /\ exists tok, In (Resolved tok (svg st)) es).
Proof.
  split; [repeat split|]. split.
  - intros st Hsvg.
    assert (Hd : export_disabled st = true) by now apply falsy_spec.
    split; [exact Hd|]. simpl. rewrite Hd, andb_false_r. reflexivity.
  - intros es st -> Hen.
    assert (Hne : svg (run_events es mount) <> EmptyString).
    { intros E. apply falsy_spec in E. unfold export_disabled in Hen. congruence. }
    split; [exact Hne|].
    destruct (svg_run_events es mount) as [E|H]; [|exact H].
    exfalso. apply Hne. rewrite E. reflexivity.
Qed.

Lemma export_disabled_while_no_artifact_witness :
  export_disabled mount = true /\ step mount ExportClick = mount.
Proof.
  apply (proj1 (proj2 export_disabled_while_no_artifact) mount).
  reflexivity.
Defined.

(** C6: an export hands the browser one file: its name is the active title
    with every space replaced by an underscore (same length, other
    characters untouched) followed by [.svg], its content is the stored
    artifact and its type is [image/svg+xml]. *)
Theorem export_file_name_content_type (st : State) :
  mounted st = true -> svg st <> EmptyString ->
  exists stem : string,
    downloads (step st ExportClick) =
      (downloads st ++
       [{| filename := (stem ++ ".svg")%string;
           mime := "image/svg+xml";
           content := svg st |}])%list /\
    stem = replace " "%char "_" (title (selected st)) /\
    occurs " "%char stem = false /\
    String.length stem = String.length (title (selected st)) /\
    forall i,
      String.get i stem =
      option_map (fun c => if Ascii.eqb c " "%char then "_"%char else c)
                 (String.get i (title (selected st))).
Proof.
  intros Hm Hsvg.
  exists (replace " "%char "_" (title (selected st))).
  split; [|split; [reflexivity|split; [apply stem_no_space|split;
           [apply stem_length | apply stem_get]]]].
  simpl. rewrite Hm.
  assert (Hd : export_disabled st = false).
  { unfold export_disabled. destruct (svg st); [congruence | reflexivity]. }
  rewrite Hd. reflexivity.
Qed.

Lemma export_file_name_content_type_witness :
  exists stem,
    downloads (step (step mount (Resolved 0 "<svg/>")) ExportClick) =
      [{| filename := (stem ++ ".svg")%string;
          mime := "image/svg+xml";
          content := "<svg/>" |}] /\
    stem = "System_Overview_(Use-Case)".
Proof.
  destruct (export_file_name_content_type (step mount (Resolved 0 "<svg/>")))
    as [stem [H1 [H2 _]]].
  - reflexivity.
  - discriminate.
  - exists stem. split; [exact H1 | exact H2].
Defined.

(* ================================================================== *)
(** ** Copy acknowledgment *)


Lemma handleCopy_failure (e : string) (st : State) :
  handleCopy (Some e) st = with_console_error (console_error st ++ [e]) st.
Proof. reflexivity. Qed.

Lemma is_due_true (t dl : nat) : dl <= t -> is_due t dl = true.
Proof. intros H. now apply Nat.leb_le. Qed.











(* ================================================================== *)
(** ** Liveness of runs *)

Lemma deactivate_live (tok k : nat) (rs : list Run) (r : Run) :
  nth_error (deactivate tok rs) k = Some r -> active r = true ->
  k <> tok /\ nth_error rs k = Some r.
Proof.
  revert tok k. induction rs as [|x rs IH]; intros tok k H Hact.
  - destruct tok, k; discriminate.
  - destruct tok as [|tok], k as [|k]; simpl in H.
    + inversion H; subst. discriminate.
    + split; [discriminate | exact H].
    + split; [discriminate | exact H].
    + destruct (IH tok k H Hact) as [Hne Hk]. split; [congruence | exact Hk].
Qed.

Lemma live_is_last_frame (st st' : State) :
  runs st' = runs st -> cleanup st' = cleanup st ->
  live_is_last st -> live_is_last st'.
Proof. unfold live_is_last. intros -> ->. auto. Qed.

Lemma live_is_last_cleanup (st : State) :
  live_is_last st ->
  forall tok r,
    nth_error (runs (run_cleanup st)) tok = Some r -> active r = false.
Proof.
  intros Hinv tok r Hrun. destruct (active r) eqn:Hact; [|reflexivity].
  exfalso. unfold run_cleanup in Hrun.
  destruct (cleanup st) as [t|] eqn:Ecl; simpl in Hrun.
  - destruct (deactivate_live t tok _ r Hrun Hact) as [Hne Hold].
    destruct (Hinv tok r Hold Hact) as [E _]. congruence.
  - destruct (Hinv tok r Hrun Hact) as [E _]. congruence.
Qed.

Lemma run_cleanup_length (st : State) :
  length (runs (run_cleanup st)) = length (runs st).
Proof.
  unfold run_cleanup. destruct (cleanup st); simpl; [|reflexivity].
  apply deactivate_length.
Qed.

Lemma live_is_last_step (st : State) (e : Event) :
  live_is_last st -> live_is_last (step st e).
Proof.
  intros Hinv.
  destruct e as [d| |failure| |tok s|tok err|ms|]; simpl.
  - destruct (mounted st) eqn:Hm; [|exact Hinv].
    apply mounted_ref in Hm as [h Href].
    destruct (String.eqb_spec (code d) (code (selected st))) as [E|Hne].
    + rewrite (setSelected_same_code d st E).
      now apply (live_is_last_frame st).
    + unfold setSelected. apply String.eqb_neq in Hne. rewrite Hne.
      pose proof (live_is_last_cleanup (with_selected d st)) as Hdead.
      assert (Hinv' : live_is_last (with_selected d st))
        by now apply (live_is_last_frame st).
      specialize (Hdead Hinv').
      pose proof (run_cleanup_length (with_selected d st)) as Hlen.
      assert (Href' : ref_current (run_cleanup (with_selected d st)) = Some h).
      { unfold run_cleanup. simpl. now destruct (cleanup st). }
      unfold effect_MermaidRenderer. rewrite Href'.
      intros k r Hk Hact. simpl in Hk |- *.
      rewrite length_app. simpl.
      destruct (Nat.lt_ge_cases k (length (runs (run_cleanup (with_selected d st)))))
        as [Hlt|Hge].
      * rewrite nth_error_app1 in Hk by exact Hlt.
        rewrite (Hdead k r Hk) in Hact. discriminate.
      * assert (Hk' : k < S (length (runs (run_cleanup (with_selected d st))))).
        { match type of Hk with
          | nth_error ?l _ = _ =>
              assert (Hb : k < length l)
                by (apply nth_error_Some; rewrite Hk; discriminate)
          end.
          rewrite length_app in Hb. simpl in Hb. lia. }
        assert (k = length (runs (run_cleanup (with_selected d st)))) by lia.
        subst k. split; [reflexivity | lia].
  - destruct (mounted st); [|exact Hinv].
    rewrite toggleDark_eq. now apply (live_is_last_frame st).
  - destruct (mounted st); [|exact Hinv].
    destruct failure; now apply (live_is_last_frame st).
  - destruct (mounted st && negb (export_disabled st)); [|exact Hinv].
    now apply (live_is_last_frame st).
  - unfold render_then.
    destruct (nth_error (runs st) tok) as [r|]; [|exact Hinv].
    destruct (active r); simpl; [|exact Hinv].
    destruct (ref_current st); now apply (live_is_last_frame st).
  - unfold render_catch.
    destruct (nth_error (runs st) tok); [|exact Hinv].
    destruct (ref_current st); [|exact Hinv].
    now apply (live_is_last_frame st).
  - rewrite elapse_eq. cbv zeta.
    destruct (filter (is_due (now st + ms)) (timers st));
      now apply (live_is_last_frame st).
  - intros k r Hk Hact.
    assert (Hk' : nth_error (runs (run_cleanup st)) k = Some r).
    { unfold unmount in Hk. exact Hk. }
    rewrite (live_is_last_cleanup st Hinv k r Hk') in Hact. discriminate.
Qed.

Lemma live_is_last_mount : live_is_last mount.
Proof.
  intros [|[|k]] r Hk Hact; simpl in Hk.
  - split; reflexivity.
  - discriminate.
  - discriminate.
Qed.

Lemma live_is_last_run_events (es : list Event) (st : State) :
  live_is_last st -> live_is_last (run_events es st).
Proof.
  revert st. induction es as [|e es IH]; intros st H; simpl; [exact H|].
  apply IH, live_is_last_step, H.
Qed.

(** X1: a fulfilment that arrives after its run was superseded by a later run,
    or after the view was unmounted, changes nothing: neither the view nor
    the [svg] cell, and [onRender] is not called. *)
Theorem stale_fulfilment_is_discarded (es : list Event) (tok : nat) (s : string) :
  (S tok < length (runs (run_events es mount)) ->
   step (run_events es mount) (Resolved tok s) = run_events es mount) /\
  step (step (run_events es mount) Unmount) (Resolved tok s) =
    step (run_events es mount) Unmount /\
  forall err,
    step (step (run_events es mount) Unmount) (Rejected tok err) =
    step (run_events es mount) Unmount.
Proof.
  pose proof (live_is_last_run_events es mount live_is_last_mount) as Hinv.
  set (st := run_events es mount) in *.
  split; [|split].
  - intros Hlt. simpl. unfold render_then.
    destruct (nth_error (runs st) tok) as [r|] eqn:Hrun; [|reflexivity].
    destruct (active r) eqn:Hact; [|reflexivity].
    destruct (Hinv tok r Hrun Hact) as [_ Hlast]. lia.
  - simpl. unfold render_then.
    destruct (nth_error (runs (unmount st)) tok) as [r|] eqn:Hrun; [|reflexivity].
    destruct (active r) eqn:Hact; [|reflexivity].
    unfold unmount in Hrun. simpl in Hrun.
    rewrite (live_is_last_cleanup st Hinv tok r Hrun) in Hact. discriminate.
  - intros err. simpl. unfold render_catch.
    destruct (nth_error (runs (unmount st)) tok); reflexivity.
Qed.

Lemma stale_fulfilment_is_discarded_witness :
  step (run_events [SelectDiagram OTO1] mount) (Resolved 0 "<svg>A</svg>") =
  run_events [SelectDiagram OTO1] mount.
Proof.
  apply (proj1 (stale_fulfilment_is_discarded
                  [SelectDiagram OTO1] 0 "<svg>A</svg>")).
  simpl. lia.
Defined.

(* ================================================================== *)
(** ** More on the escaping *)

Lemma escape_chars_app (a b : string) :
  escape_chars (a ++ b) = (escape_chars a ++ escape_chars b)%string.
Proof.
  induction a as [|x a IH]; simpl; [reflexivity|].
  now rewrite IH, append_assoc.
Qed.

Lemma escape_char_length (c : ascii) :
  String.length (escape_char c) =
  1 + 4 * (if Ascii.eqb c "&"%char then 1 else 0)
    + 3 * (if Ascii.eqb c "<"%char then 1 else 0)
    + 3 * (if Ascii.eqb c ">"%char then 1 else 0).
Proof.
  unfold escape_char.
  destruct (Ascii.eqb_spec c "&"%char) as [->|_]; [reflexivity|].
  destruct (Ascii.eqb_spec c "<"%char) as [->|_]; [reflexivity|].
  destruct (Ascii.eqb_spec c ">"%char) as [->|_]; reflexivity.
Qed.

Lemma escape_chars_length (s : string) :
  String.length (escape_chars s) =
  String.length s + 4 * count_char "&"%char s
  + 3 * count_char "<"%char s + 3 * count_char ">"%char s.
Proof.
  induction s as [|c s IH]; [reflexivity|].
  cbn [escape_chars count_char String.length].
  rewrite length_append, escape_char_length, IH. lia.
Qed.

Lemma count_char_zero (c : ascii) (s : string) :
  count_char c s = 0 <-> occurs c s = false.
Proof.
  induction s as [|a s IH]; simpl; [tauto|].
  destruct (Ascii.eqb a c); simpl.
  - split; [lia | discriminate].
  - exact IH.
Qed.

(** X2: [safeCode] distributes over concatenation, lengthens its input by
    four characters per [&] and three per [<] and [>], and returns its
    input unchanged exactly when none of the three characters occurs. *)
Theorem safeCode_homomorphism_length_fixpoint :
  (forall a b, safeCode (a ++ b) = (safeCode a ++ safeCode b)%string) /\
  (forall s,
     String.length (safeCode s) =
     String.length s + 4 * count_char "&"%char s
     + 3 * count_char "<"%char s + 3 * count_char ">"%char s) /\
  (forall s,
     safeCode s = s <->
     occurs "&"%char s = false /\ occurs "<"%char s = false /\
     occurs ">"%char s = false).
Proof.
  split; [|split].
  - intros a b. rewrite !safeCode_escape_chars. apply escape_chars_app.
  - intros s. rewrite safeCode_escape_chars. apply escape_chars_length.
  - intros s. split.
    + intros E. apply (f_equal String.length) in E.
      rewrite safeCode_escape_chars, escape_chars_length in E.
      rewrite <- !count_char_zero. lia.
    + intros [Ha [Hl Hg]]. unfold safeCode.
      now rewrite (replace_absent _ _ s Ha), (replace_absent _ _ s Hl),
        (replace_absent _ _ s Hg).
Qed.

Lemma safeCode_homomorphism_length_fixpoint_witness :
  safeCode "flowchart LR" = "flowchart LR".
Proof.
  apply (proj2 (proj2 safeCode_homomorphism_length_fixpoint)).
  repeat split.
Defined.

(* ================================================================== *)
(** ** The rendered sidebar *)

Section SidebarViewFacts.

Local Open Scope list_scope.

Lemma highlighted_button (cur : string) (d : Diagram) :
  View.highlighted (View.button cur d) = String.eqb cur (id d).
Proof.
  unfold View.highlighted, View.button. simpl.
  destruct (String.eqb cur (id d)); reflexivity.
Qed.

Lemma all_buttons_Sidebar (items : list Diagram) (cur : string) :
  View.all_buttons (View.Sidebar items cur) =
  map (View.button cur) (Sidebar.flatten (Sidebar.groups items)).
Proof.
  unfold View.all_buttons, View.Sidebar, Sidebar.flatten.
  induction (Sidebar.groups items) as [|[g ds] m IH]; simpl; [reflexivity|].
  now rewrite IH, map_app.
Qed.

Lemma filter_highlighted (cur : string) (l : list Diagram) :
  filter View.highlighted (map (View.button cur) l) =
  map (View.button cur) (filter (fun x => String.eqb cur (id x)) l).
Proof.
  induction l as [|x l IH]; simpl; [reflexivity|].
  rewrite highlighted_button.
  destruct (String.eqb cur (id x)); simpl; now rewrite IH.
Qed.

Lemma filter_id_none (cur : string) (l : list Diagram) :
  (forall x, In x l -> id x <> cur) ->
  filter (fun x => String.eqb cur (id x)) l = [].
Proof.
  induction l as [|x l IH]; intros H; simpl; [reflexivity|].
  destruct (String.eqb_spec cur (id x)) as [E|_].
  - exfalso. apply (H x); [now left | congruence].
  - apply IH. intros y Hy. apply H. now right.
Qed.

Lemma filter_id_unique (cur : string) (l : list Diagram) (d : Diagram) :
  NoDup (map id l) -> In d l -> id d = cur ->
  filter (fun x => String.eqb cur (id x)) l = [d].
Proof.
  induction l as [|x l IH]; intros Hnd Hin Hid; [destruct Hin|].
  simpl in Hnd. inversion Hnd as [|? ? Hnotin Hnd']; subst.
  simpl. destruct Hin as [->|Hin].
  - rewrite String.eqb_refl. f_equal. apply filter_id_none.
    intros y Hy E. apply Hnotin. rewrite <- E. now apply in_map.
  - destruct (String.eqb_spec (id d) (id x)) as [E|_].
    + exfalso. apply Hnotin. rewrite <- E. now apply in_map.
    + now apply IH.
Qed.

Lemma diagrams_ids_distinct : NoDup (map id diagrams).
Proof.
  repeat constructor; simpl; intuition discriminate.
Qed.

(** X3: when the entries have distinct ids, the sidebar highlights exactly
    one button, the one of the entry whose id is [currentId], and none when
    no entry has that id; in [App], right after a click on the button of a
    catalog entry, that entry's button is the highlighted one. *)
Theorem sidebar_highlights_exactly_current :
  (forall items cur d,
     NoDup (map id items) -> In d items -> id d = cur ->
     filter View.highlighted (View.all_buttons (View.Sidebar items cur)) =
     [View.button cur d]) /\
  (forall items cur,
     (forall x, In x items -> id x <> cur) ->
     filter View.highlighted (View.all_buttons (View.Sidebar items cur)) = []) /\
  (forall st d,
     mounted st = true -> In d diagrams ->
     filter View.highlighted
       (View.all_buttons (View.App_sidebar (step st (SelectDiagram d)))) =
     [View.button (id d) d]).
Proof.
  assert (Hone : forall items cur d,
     NoDup (map id items) -> In d items -> id d = cur ->
     filter View.highlighted (View.all_buttons (View.Sidebar items cur)) =
     [View.button cur d]).
  { intros items cur d Hnd Hin Hid.
    rewrite all_buttons_Sidebar, filter_highlighted.
    pose proof (flatten_groups items) as Hperm.
    rewrite (filter_id_unique cur _ d); [reflexivity| | |exact Hid].
    - apply (Permutation_NoDup (l := map id items)); [|exact Hnd].
      apply Permutation_map, Permutation_sym, Hperm.
    - apply (Permutation_in d (Permutation_sym Hperm)), Hin. }
  split; [exact Hone|]. split.
  - intros items cur Hnone.
    rewrite all_buttons_Sidebar, filter_highlighted, filter_id_none; [reflexivity|].
    intros x Hx. apply Hnone.
    apply (Permutation_in x (flatten_groups items)), Hx.
  - intros st d Hm Hin. unfold View.App_sidebar.
    assert (Hsel : selected (step st (SelectDiagram d)) = d).
    { simpl. rewrite Hm. unfold setSelected.
      destruct (String.eqb (code d) (code (selected st))); [reflexivity|].
      unfold effect_MermaidRenderer, run_cleanup. simpl.
      destruct (cleanup st); simpl; destruct (ref_current st); reflexivity. }
    rewrite Hsel. apply Hone; [apply diagrams_ids_distinct | exact Hin | reflexivity].
Qed.

Lemma sidebar_highlights_exactly_current_witness :
  map View.text
    (filter View.highlighted
       (View.all_buttons (View.App_sidebar (step mount (SelectDiagram OTO3))))) =
  ["Funding & Partnerships (Sequence)"].
Proof.
  rewrite (proj2 (proj2 sidebar_highlights_exactly_current) mount OTO3).
  - reflexivity.
  - reflexivity.
  - simpl. tauto.
Defined.

End SidebarViewFacts.

Section RegroupFacts.

Import Sidebar.
Local Open Scope list_scope.





Lemma filter_keep_all {A : Type} (f : A -> bool) (l : list A) :
  (forall x, In x l -> f x = true) -> filter f l = l.
Proof.
  induction l as [|x l IH]; intros H; simpl; [reflexivity|].
  rewrite (H x) by now left. f_equal. apply IH. intros y Hy. apply H. now right.
Qed.





End RegroupFacts.


(* ================================================================== *)
(** ** Invariants of the state machine *)

(** Case analysis on one step, down to the branch the handler takes. *)
Ltac step_cases st e :=
  destruct e as [d| |failure| |tok s|tok err|ms|]; simpl;
  [ destruct (mounted st) eqn:?Hm;
    [ unfold setSelected;
      destruct (String.eqb (code d) (code (selected st))) eqn:?Hc;
      [ | unfold effect_MermaidRenderer, run_cleanup; simpl;
          destruct (cleanup st) eqn:?Hcl; simpl;
          destruct (ref_current st) eqn:?Href; simpl ]
    | ]
  | destruct (mounted st) eqn:?Hm; [rewrite toggleDark_eq | ]
  | destruct (mounted st) eqn:?Hm; [destruct failure; simpl | ]
  | destruct (mounted st && negb (export_disabled st)) eqn:?Hex
  | unfold render_then;
    destruct (nth_error (runs st) tok) as [r|] eqn:?Hrun;
    [ destruct (active r) eqn:?Hact; simpl;
      [ destruct (ref_current st) eqn:?Href | ]
    | ]
  | unfold render_catch;
    destruct (nth_error (runs st) tok) as [r|] eqn:?Hrun;
    [ destruct (ref_current st) eqn:?Href | ]
  | rewrite elapse_eq; cbv zeta;
    destruct (filter (is_due (now st + ms)) (timers st)) eqn:?Hdue
  | unfold unmount, run_cleanup; destruct (cleanup st) eqn:?Hcl ].

Lemma run_events_snoc (es : list Event) (e : Event) (st : State) :
  run_events (es ++ [e]) st = step (run_events es st) e.
Proof. unfold run_events. now rewrite fold_left_app. Qed.

Lemma run_events_app (es es' : list Event) (st : State) :
  run_events (es ++ es') st = run_events es' (run_events es st).
Proof. unfold run_events. now rewrite fold_left_app. Qed.

(** An invariant of every step holds in every reachable state. *)
Lemma reachable_ind (P : State -> Prop) :
  P mount -> (forall st e, P st -> P (step st e)) ->
  forall es, P (run_events es mount).
Proof.
  intros H0 Hstep es. induction es as [|e es IH] using rev_ind; [exact H0|].
  rewrite run_events_snoc. now apply Hstep.
Qed.

Lemma configs_app (a b : list Mermaid.Call) :
  configs (a ++ b) = (configs a ++ configs b)%list.
Proof. unfold configs. apply flat_map_app. Qed.

Lemma theme_synced_step (st : State) (e : Event) :
  theme_synced st -> theme_synced (step st e).
Proof.
  intros [Hc [earlier He]].
  step_cases st e; unfold theme_synced; simpl;
    try (split; [exact Hc | now exists earlier]);
    try (split; [exact Hc|]; rewrite configs_app, He; simpl;
         rewrite app_nil_r; now exists earlier).
  split; [reflexivity|]. rewrite configs_app, He. simpl.
  now exists (earlier ++ [mermaid_config (dark st)])%list.
Qed.

Lemma theme_synced_mount : theme_synced mount.
Proof. split; [reflexivity|]. now exists []. Qed.

(** The engine's call log only grows. *)
Lemma mermaid_calls_step (st : State) (e : Event) :
  exists more, mermaid_calls (step st e) = (mermaid_calls st ++ more)%list.
Proof.
  step_cases st e;
    try (exists []; simpl; now rewrite app_nil_r);
    try (eexists; simpl; reflexivity).
Qed.

(** X5: in every reachable state the [dark] class of the document and the
    configuration the engine was last given agree with the [dark] cell,
    the theme button names the other theme, and two toggles in a row bring
    the cell back. *)
Theorem theme_stays_synced (es : list Event) :
  class_dark (run_events es mount) = dark (run_events es mount) /\
  (exists earlier,
     configs (mermaid_calls (run_events es mount)) =
     (earlier ++ [mermaid_config (dark (run_events es mount))])%list) /\
  (View.theme_button_text (run_events es mount) = "Light Mode" <->
   Mermaid.theme (mermaid_config (dark (run_events es mount))) = "dark") /\
  dark (run_events [ToggleTheme; ToggleTheme] (run_events es mount)) =
    dark (run_events es mount).
Proof.
  pose proof (reachable_ind theme_synced theme_synced_mount theme_synced_step es)
    as [Hc He].
  split; [exact Hc|]. split; [exact He|]. split.
  - unfold View.theme_button_text.
    destruct (dark (run_events es mount)); simpl; split; congruence.
  - set (st := run_events es mount). simpl.
    destruct (mounted st) eqn:Hm; [|now rewrite Hm].
    rewrite toggleDark_eq. unfold mounted at 1. simpl. fold (mounted st).
    rewrite Hm, toggleDark_eq. simpl. apply negb_involutive.
Qed.

(** X6: the first call the engine ever receives is the render of the first
    catalog entry, and the first [initialize] comes only after it. *)
Theorem first_render_precedes_initialize (es : list Event) :
  exists later,
    mermaid_calls (run_events es mount) =
    Mermaid.render 0 (code OTO0) ::
    Mermaid.initialize (mermaid_config false) :: later.
Proof.
  apply (reachable_ind
           (fun st => exists later,
              mermaid_calls st =
              Mermaid.render 0 (code OTO0) ::
              Mermaid.initialize (mermaid_config false) :: later)).
  - now exists [].
  - intros st e [later H]. destruct (mermaid_calls_step st e) as [more Hm].
    exists (later ++ more)%list. now rewrite Hm, H.
Qed.

Lemma live_current_mount : live_current mount.
Proof.
  intros h _. exists 0. repeat split. simpl. now left.
Qed.

Lemma live_current_step (st : State) (e : Event) :
  live_current st -> live_current (step st e).
Proof.
  intros Hinv.
  step_cases st e; intros h' Hh; simpl in Hh; try discriminate;
    try (destruct (Hinv _ Hh) as [t [Hcl' [Hrun' Hin']]];
         exists t; simpl; repeat split;
         solve [ assumption | congruence | apply in_or_app; now left ]).
  - (* same source selected *)
    apply String.eqb_eq in Hc.
    destruct (Hinv _ Hh) as [t [Hcl' [Hrun' Hin']]].
    exists t. simpl. rewrite Hc. now repeat split.
  - (* new source, a cleanup was held *)
    eexists. simpl. split; [reflexivity|]. split.
    + now apply nth_error_snoc.
    + apply in_or_app. right. now left.
  - (* new source, no cleanup held *)
    eexists. simpl. split; [reflexivity|]. split.
    + now apply nth_error_snoc.
    + apply in_or_app. right. now left.
  - (* fulfilment applied *)
    destruct (Hinv _ Href) as [t [Hcl' [Hrun' Hin']]].
    exists t. simpl. now repeat split.
  - (* rejection shown *)
    destruct (Hinv _ Href) as [t [Hcl' [Hrun' Hin']]].
    exists t. simpl. now repeat split.
Qed.

Lemma render_then_live (st : State) (tok : nat) (r : Run) (s h : string) :
  nth_error (runs st) tok = Some r -> active r = true ->
  ref_current st = Some h ->
  render_then tok s st =
  with_svg s
    (with_onRender_calls (onRender_calls st ++ [s])
       (with_ref_current (Some s) st)).
Proof. unfold render_then. intros -> -> ->. reflexivity. Qed.

(** X7: in every reachable state with the view mounted, the latest run is
    live and is the render of the selected entry's source; its fulfilment
    is displayed, stored and reported through [onRender], and the
    fulfilment of any other run changes nothing. *)
Theorem live_run_renders_the_selection (es : list Event) (h : string) :
  ref_current (run_events es mount) = Some h ->
  exists tok,
    S tok = length (runs (run_events es mount)) /\
    nth_error (runs (run_events es mount)) tok =
      Some {| run_code := code (selected (run_events es mount));
              active := true |} /\
    In (Mermaid.render tok (code (selected (run_events es mount))))
       (mermaid_calls (run_events es mount)) /\
    (forall s,
       innerHTML (step (run_events es mount) (Resolved tok s)) = Some s /\
       svg (step (run_events es mount) (Resolved tok s)) = s /\
       onRender_calls (step (run_events es mount) (Resolved tok s)) =
         (onRender_calls (run_events es mount) ++ [s])%list) /\
    (forall tok' s,
       tok' <> tok ->
       step (run_events es mount) (Resolved tok' s) = run_events es mount).
Proof.
  intros Href.
  pose proof (reachable_ind live_current live_current_mount live_current_step es)
    as Hcur.
  pose proof (live_is_last_run_events es mount live_is_last_mount) as Hlast.
  set (st := run_events es mount) in *.
  destruct (Hcur h Href) as [tok [Hcl [Hrun Hin]]].
  exists tok.
  destruct (Hlast tok _ Hrun eq_refl) as [_ Hlen].
  split; [exact Hlen|]. split; [exact Hrun|]. split; [exact Hin|]. split.
  - intros s. simpl.
    rewrite (render_then_live st tok _ s h Hrun eq_refl Href).
    repeat split.
  - intros tok' s Hne. simpl. unfold render_then.
    destruct (nth_error (runs st) tok') as [r|] eqn:Hrun'; [|reflexivity].
    destruct (active r) eqn:Hact; [|reflexivity].
    destruct (Hlast tok' r Hrun' Hact) as [Hcl' _]. congruence.
Qed.

Lemma live_run_renders_the_selection_witness :
  exists tok,
    S tok = length (runs (run_events [SelectDiagram OTO2] mount)) /\
    nth_error (runs (run_events [SelectDiagram OTO2] mount)) tok =
      Some {| run_code := code OTO2; active := true |}.
Proof.
  destruct (live_run_renders_the_selection [SelectDiagram OTO2] spinner eq_refl)
    as [tok [H1 [H2 _]]].
  exists tok. split; [exact H1 | exact H2].
Defined.

(** X8: selecting an entry with another source, in a mounted view, makes
    it the selection, shows the loading indicator and issues exactly one
    render call, for that source, without touching the stored artifact;
    when that render is fulfilled its output is displayed, stored and
    reported once. *)
Theorem select_new_source_renders_it (st : State) (d : Diagram) (h : string) :
  ref_current st = Some h -> code d <> code (selected st) ->
  selected (step st (SelectDiagram d)) = d /\
  innerHTML (step st (SelectDiagram d)) = Some spinner /\
  mermaid_calls (step st (SelectDiagram d)) =
    (mermaid_calls st ++ [Mermaid.render (length (runs st)) (code d)])%list /\
  svg (step st (SelectDiagram d)) = svg st /\
  forall s,
    innerHTML (run_events [SelectDiagram d; Resolved (length (runs st)) s] st)
      = Some s /\
    svg (run_events [SelectDiagram d; Resolved (length (runs st)) s] st) = s /\
    onRender_calls
      (run_events [SelectDiagram d; Resolved (length (runs st)) s] st) =
      (onRender_calls st ++ [s])%list /\
    selected (run_events [SelectDiagram d; Resolved (length (runs st)) s] st)
      = d.
Proof.
  intros Href Hne.
  assert (Hm : mounted st = true) by (apply mounted_ref; now exists h).
  pose proof (setSelected_run d st h Hne Href) as Hrun.
  pose proof (setSelected_new_code d st h Hne Href) as Hsel.
  simpl. rewrite Hm.
  split; [now rewrite Hsel|]. split; [now rewrite Hsel|].
  split; [now rewrite Hsel|]. split; [now rewrite Hsel|].
  intros s.
  rewrite (render_then_live (setSelected d st) _ _ s spinner Hrun eq_refl)
    by now rewrite Hsel.
  unfold innerHTML. simpl. rewrite Hsel. simpl. repeat split.
Qed.

Lemma select_new_source_renders_it_witness :
  innerHTML (step mount (SelectDiagram OTO4)) = Some spinner /\
  svg (run_events [SelectDiagram OTO4; Resolved 1 "<svg>4</svg>"] mount) =
    "<svg>4</svg>".
Proof.
  assert (Hne : code OTO4 <> code (selected mount)) by discriminate.
  destruct (select_new_source_renders_it mount OTO4 spinner eq_refl Hne)
    as [_ [H2 [_ [_ H5]]]].
  split; [exact H2 | exact (proj1 (proj2 (H5 "<svg>4</svg>")))].
Defined.

(* ================================================================== *)
(** ** More on export and the stored artifact *)

Lemma export_click_enabled (st : State) (h : string) :
  ref_current st = Some h -> svg st <> EmptyString ->
  step st ExportClick = onClick_export st.
Proof.
  intros Href Hsvg. simpl. unfold mounted, export_disabled. rewrite Href.
  destruct (svg st); [congruence | reflexivity].
Qed.

Lemma downloads_onClick_export (st : State) :
  downloads (onClick_export st) =
  (downloads st ++
   [{| filename := (replace " "%char "_" (title (selected st)) ++ ".svg")%string;
       mime := "image/svg+xml";
       content := svg st |}])%list.
Proof. reflexivity. Qed.

Lemma select_keeps_artifact (st : State) (d : Diagram) (h : string) :
  ref_current st = Some h ->
  (exists h1, ref_current (step st (SelectDiagram d)) = Some h1) /\
  svg (step st (SelectDiagram d)) = svg st /\
  selected (step st (SelectDiagram d)) = d /\
  downloads (step st (SelectDiagram d)) = downloads st.
Proof.
  intros Href.
  assert (Hm : mounted st = true) by (apply mounted_ref; now exists h).
  simpl. rewrite Hm.
  destruct (String.eqb_spec (code d) (code (selected st))) as [E|Hne].
  - rewrite (setSelected_same_code d st E). simpl. repeat split. now exists h.
  - rewrite (setSelected_new_code d st h Hne Href). simpl. repeat split.
    now exists spinner.
Qed.

Lemma rejected_keeps_artifact (st : State) (tok : nat) (err h : string) :
  ref_current st = Some h ->
  (exists h1, ref_current (step st (Rejected tok err)) = Some h1) /\
  svg (step st (Rejected tok err)) = svg st /\
  selected (step st (Rejected tok err)) = selected st /\
  downloads (step st (Rejected tok err)) = downloads st.
Proof.
  intros Href. simpl. unfold render_catch.
  destruct (nth_error (runs st) tok) as [r|].
  - rewrite Href. simpl. repeat split. eexists. reflexivity.
  - repeat split. now exists h.
Qed.

(** X9: the exported file takes its name from the entry selected now and
    its content from the artifact stored last: right after another entry
    is selected, and still after that entry's render was rejected, export
    delivers the earlier artifact under the new entry's name. *)
Theorem export_after_selection_keeps_old_artifact
    (st : State) (d : Diagram) (h : string) :
  ref_current st = Some h -> svg st <> EmptyString ->
  downloads (run_events [SelectDiagram d; ExportClick] st) =
    (downloads st ++
     [{| filename := (replace " "%char "_" (title d) ++ ".svg")%string;
         mime := "image/svg+xml";
         content := svg st |}])%list /\
  forall tok err,
    downloads (run_events [SelectDiagram d; Rejected tok err; ExportClick] st) =
    (downloads st ++
     [{| filename := (replace " "%char "_" (title d) ++ ".svg")%string;
         mime := "image/svg+xml";
         content := svg st |}])%list.
Proof.
  intros Href Hsvg.
  destruct (select_keeps_artifact st d h Href) as [[h1 Href1] [Hsvg1 [Hsel1 Hdl1]]].
  split.
  - change (run_events [SelectDiagram d; ExportClick] st)
      with (step (step st (SelectDiagram d)) ExportClick).
    rewrite (export_click_enabled _ h1 Href1) by congruence.
    rewrite downloads_onClick_export.
    now rewrite Hsvg1, Hsel1, Hdl1.
  - intros tok err.
    change (run_events [SelectDiagram d; Rejected tok err; ExportClick] st)
      with (step (step (step st (SelectDiagram d)) (Rejected tok err)) ExportClick).
    destruct (rejected_keeps_artifact (step st (SelectDiagram d)) tok err h1 Href1)
      as [[h2 Href2] [Hsvg2 [Hsel2 Hdl2]]].
    rewrite (export_click_enabled _ h2 Href2) by congruence.
    rewrite downloads_onClick_export.
    now rewrite Hsvg2, Hsel2, Hdl2, Hsvg1, Hsel1, Hdl1.
Qed.

Lemma export_after_selection_keeps_old_artifact_witness :
  downloads
    (run_events [SelectDiagram OTO1; ExportClick]
       (step mount (Resolved 0 "<svg>0</svg>"))) =
  [{| filename := "No-Code_Automation_Workflow_(Flowchart).svg";
      mime := "image/svg+xml";
      content := "<svg>0</svg>" |}].
Proof.
  apply (proj1 (export_after_selection_keeps_old_artifact
                  (step mount (Resolved 0 "<svg>0</svg>")) OTO1
                  "<svg>0</svg>" eq_refl ltac:(discriminate))).
Defined.




Lemma svg_is_last_onRender_step (st : State) (e : Event) :
  svg_is_last_onRender st -> svg_is_last_onRender (step st e).
Proof.
  unfold svg_is_last_onRender. intros H.
  step_cases st e; simpl; try exact H; now rewrite last_last.
Qed.

Lemma onRender_calls_step (st : State) (e : Event) :
  onRender_calls (step st e) = onRender_calls st \/
  exists tok s, e = Resolved tok s /\
                onRender_calls (step st e) = (onRender_calls st ++ [s])%list.
Proof.
  step_cases st e; try (left; reflexivity);
    right; exists tok, s; split; reflexivity.
Qed.

(** X11: the stored artifact is always the argument of the latest
    [onRender] call (empty before the first one), and every [onRender]
    argument is the output of a render the engine fulfilled: selections,
    theme changes and rejections never reset or replace it. *)
Theorem artifact_is_latest_onRender (es : list Event) :
  svg (run_events es mount) =
    last (onRender_calls (run_events es mount)) EmptyString /\
  forall s,
    In s (onRender_calls (run_events es mount)) ->
    exists tok, In (Resolved tok s) es.
Proof.
  split.
  - apply (reachable_ind svg_is_last_onRender); [reflexivity|].
    apply svg_is_last_onRender_step.
  - induction es as [|e es IH] using rev_ind; intros s Hin; [destruct Hin|].
    rewrite run_events_snoc in Hin.
    destruct (onRender_calls_step (run_events es mount) e)
      as [E|[tok [s' [-> E]]]]; rewrite E in Hin.
    + destruct (IH s Hin) as [tok Htok]. exists tok. apply in_or_app. now left.
    + apply in_app_or in Hin as [Hin|[<-|[]]].
      * destruct (IH s Hin) as [tok' Htok]. exists tok'. apply in_or_app. now left.
      * exists tok. apply in_or_app. right. now left.
Qed.

(* ================================================================== *)
(** ** Timeouts of the copy acknowledgment *)

Lemma filter_nil_all {A : Type} (f : A -> bool) (l : list A) :
  filter f l = [] -> forall x, In x l -> f x = false.
Proof.
  induction l as [|a l IH]; intros H x Hx; [destruct Hx|].
  simpl in H. destruct (f a) eqn:E; [discriminate|].
  destruct Hx as [<-|Hx]; [exact E | now apply IH].
Qed.

Lemma filter_drop_all {A : Type} (f : A -> bool) (l : list A) :
  (forall x, In x l -> f x = false) -> filter f l = [].
Proof.
  induction l as [|a l IH]; intros H; simpl; [reflexivity|].
  rewrite (H a) by now left. apply IH. intros x Hx. apply H. now right.
Qed.

Lemma timers_ok_mount : timers_ok mount.
Proof. split; [constructor | reflexivity]. Qed.

Lemma timers_ok_step (st : State) (e : Event) :
  timers_ok st -> timers_ok (step st e).
Proof.
  intros [Hb Hl].
  step_cases st e; unfold timers_ok; simpl; try (split; assumption).
  - (* a successful copy *)
    split.
    + apply Forall_app. split; [exact Hb|]. constructor; [lia | constructor].
    + intros E. apply app_eq_nil in E as [_ E]. discriminate.
  - (* time passes, nothing due *)
    pose proof (filter_nil_all _ _ Hdue) as Hnone.
    rewrite (filter_keep_all (fun dl => negb (is_due (now st + ms) dl)) (timers st))
      by (intros x Hx; now rewrite (Hnone x Hx)).
    split; [|exact Hl].
    apply Forall_forall. intros x Hx.
    pose proof (proj1 (Forall_forall _ _) Hb x Hx). simpl in *. lia.
  - (* time passes, some timeout fires *)
    split; [|reflexivity].
    apply Forall_forall. intros x Hx. apply filter_In in Hx as [Hx _].
    pose proof (proj1 (Forall_forall _ _) Hb x Hx). simpl in *. lia.
Qed.

(** X12: the acknowledgment cannot stick: in every reachable state each
    pending timeout is due within 2000 ms and ["Copied!"] is shown only
    while one is pending, so once 2000 ms pass without another event the
    label is the default and no timeout is left. *)
Theorem acknowledgment_always_expires (es : list Event) :
  Forall (fun dl => dl <= now (run_events es mount) + 2000)
         (timers (run_events es mount)) /\
  (copyStatus (run_events es mount) = "Copied!" ->
   timers (run_events es mount) <> []) /\
  (forall ms,
     2000 <= ms ->
     copyStatus (run_events (es ++ [Elapse ms]) mount) = "Copy Mermaid" /\
     timers (run_events (es ++ [Elapse ms]) mount) = []).
Proof.
  pose proof (reachable_ind timers_ok timers_ok_mount timers_ok_step es)
    as [Hb Hl].
  split; [exact Hb|]. split.
  - intros Hc Ht. rewrite (Hl Ht) in Hc. discriminate.
  - intros ms Hms. rewrite run_events_snoc.
    set (st := run_events es mount) in *. simpl. rewrite elapse_eq. cbv zeta.
    assert (Hall : forall x, In x (timers st) -> is_due (now st + ms) x = true).
    { intros x Hx. apply is_due_true.
      pose proof (proj1 (Forall_forall _ _) Hb x Hx). simpl in *. lia. }
    assert (Hlater : filter (fun dl => negb (is_due (now st + ms) dl)) (timers st)
                     = []).
    { apply filter_drop_all. intros x Hx. now rewrite (Hall x Hx). }
    rewrite Hlater, (filter_keep_all _ _ Hall).
    destruct (timers st) eqn:Et; simpl.
    + split; [now apply Hl | reflexivity].
    + split; reflexivity.
Qed.

Lemma acknowledgment_always_expires_witness :
  copyStatus
    (run_events ([CopyClick None; Elapse 1500; CopyClick None] ++ [Elapse 2000])
       mount) = "Copy Mermaid".
Proof.
  apply (proj2 (proj2 (acknowledgment_always_expires
                         [CopyClick None; Elapse 1500; CopyClick None])) 2000).
  lia.
Defined.

(* ================================================================== *)
(** ** After the view is unmounted *)

Lemma same_but_clock_refl (st : State) : same_but_clock st st.
Proof. unfold same_but_clock. tauto. Qed.

Lemma same_but_clock_trans (a b c : State) :
  same_but_clock a b -> same_but_clock b c -> same_but_clock a c.
Proof.
  unfold same_but_clock. intros H1 H2.
  repeat match goal with H : _ /\ _ |- _ => destruct H end.
  repeat split; congruence.
Qed.

Lemma torn_down_unmount (st : State) :
  live_is_last st -> torn_down (unmount st).
Proof.
  intros Hinv. split; [reflexivity|]. split.
  - unfold unmount, run_cleanup. now destruct (cleanup st) eqn:E.
  - intros tok r Hrun. apply (live_is_last_cleanup st Hinv tok r). exact Hrun.
Qed.

Lemma torn_down_step (st : State) (e : Event) :
  torn_down st -> torn_down (step st e) /\ same_but_clock st (step st e).
Proof.
  intros [Href [Hcl Hdead]].
  assert (Hm : mounted st = false) by (unfold mounted; now rewrite Href).
  assert (Hsame : torn_down st /\ same_but_clock st st).
  { split; [now repeat split | apply same_but_clock_refl]. }
  destruct e as [d| |failure| |tok s|tok err|ms|]; simpl; rewrite ?Hm; simpl;
    try exact Hsame.
  - unfold render_then.
    destruct (nth_error (runs st) tok) as [r|] eqn:Hrun; [|exact Hsame].
    now rewrite (Hdead tok r Hrun).
  - unfold render_catch. rewrite Href.
    now destruct (nth_error (runs st) tok).
  - rewrite elapse_eq. cbv zeta.
    destruct (filter (is_due (now st + ms)) (timers st));
      (split; [now repeat split | unfold same_but_clock; simpl; repeat split]).
  - unfold unmount, run_cleanup. rewrite Hcl.
    split; [now repeat split | unfold same_but_clock; simpl; repeat split].
    now rewrite Href.
Qed.

Lemma torn_down_run_events (es : list Event) (st : State) :
  torn_down st -> same_but_clock st (run_events es st).
Proof.
  revert st. induction es as [|e es IH]; intros st H; simpl.
  - apply same_but_clock_refl.
  - destruct (torn_down_step st e H) as [H1 H2].
    apply (same_but_clock_trans _ _ _ H2), IH, H1.
Qed.

(** X13: once [App] has been unmounted nothing more reaches the page or
    the engine: whatever events follow (settlements of renders still in
    flight included), the view stays detached and there is no further
    engine call, [onRender] call, artifact change or download. *)
Theorem nothing_happens_after_unmount (es later : list Event) :
  innerHTML (run_events later (step (run_events es mount) Unmount)) = None /\
  mermaid_calls (run_events later (step (run_events es mount) Unmount)) =
    mermaid_calls (run_events es mount) /\
  onRender_calls (run_events later (step (run_events es mount) Unmount)) =
    onRender_calls (run_events es mount) /\
  svg (run_events later (step (run_events es mount) Unmount)) =
    svg (run_events es mount) /\
  downloads (run_events later (step (run_events es mount) Unmount)) =
    downloads (run_events es mount).
Proof.
  pose proof (live_is_last_run_events es mount live_is_last_mount) as Hinv.
  set (st := run_events es mount) in *.
  pose proof (torn_down_run_events later (step st Unmount)
                (torn_down_unmount st Hinv)) as H.
  unfold same_but_clock in H.
  repeat match goal with H : _ /\ _ |- _ => destruct H end.
  assert (Hu : svg (unmount st) = svg st /\
               mermaid_calls (unmount st) = mermaid_calls st /\
               onRender_calls (unmount st) = onRender_calls st /\
               downloads (unmount st) = downloads st).
  { unfold unmount, run_cleanup. destruct (cleanup st); simpl; tauto. }
  destruct Hu as [Hu1 [Hu2 [Hu3 Hu4]]].
  change (step st Unmount) with (unmount st) in *.
  unfold innerHTML.
  repeat split; try congruence.
  match goal with Hr : ref_current _ = ref_current _ |- _ => rewrite Hr end.
  reflexivity.
Qed.

(* ================================================================== *)
(** ** What the view shows and what the engine is asked *)

Lemma ref_current_step (st : State) (e : Event) :
  ref_current (step st e) = ref_current st \/
  ref_current (step st e) = None \/
  ref_current (step st e) = Some spinner \/
  (exists tok s, e = Resolved tok s /\ ref_current (step st e) = Some s) \/
  (exists tok err c,
     e = Rejected tok err /\
     ref_current (step st e) = Some (error_panel err c)).
Proof.
  step_cases st e;
    first [ left; reflexivity
          | left; congruence
          | right; left; congruence
          | right; right; left; reflexivity
          | right; right; right; left; eexists _, _; split; reflexivity
          | right; right; right; right; eexists _, _, _; split; reflexivity ].
Qed.

(** X14: whatever has happened, a mounted view shows one of three things:
    the loading indicator, the output of a render the engine fulfilled, or
    the error panel of a render the engine rejected. *)
Theorem view_shows_spinner_output_or_error (es : list Event) (h : string) :
  innerHTML (run_events es mount) = Some h ->
  h = spinner \/
  (exists tok, In (Resolved tok h) es) \/
  (exists tok err c, In (Rejected tok err) es /\ h = error_panel err c).
Proof.
  unfold innerHTML. revert h.
  induction es as [|e es IH] using rev_ind; intros h Hh.
  - left. simpl in Hh. congruence.
  - rewrite run_events_snoc in Hh.
    assert (Hold : ref_current (run_events es mount) = Some h ->
                   h = spinner \/
                   (exists tok, In (Resolved tok h) (es ++ [e])) \/
                   (exists tok err c,
                      In (Rejected tok err) (es ++ [e]) /\ h = error_panel err c)).
    { intros H. destruct (IH h H) as [H1|[[tok H2]|[tok [err [c [H3 H4]]]]]].
      - now left.
      - right. left. exists tok. apply in_or_app. now left.
      - right. right. exists tok, err, c. split; [|exact H4].
        apply in_or_app. now left. }
    destruct (ref_current_step (run_events es mount) e)
      as [E|[E|[E|[[tok [s [-> E]]]|[tok [err [c [-> E]]]]]]]];
      rewrite E in Hh.
    + now apply Hold.
    + discriminate.
    + left. congruence.
    + right. left. exists tok. apply in_or_app. right. left. congruence.
    + right. right. exists tok, err, c. split.
      * apply in_or_app. right. now left.
      * congruence.
Qed.

Lemma view_shows_spinner_output_or_error_witness :
  "<svg>B</svg>" = spinner \/
  (exists tok,
     In (Resolved tok "<svg>B</svg>")
        [SelectDiagram OTO1; Resolved 1 "<svg>B</svg>"]) \/
  (exists tok err c,
     In (Rejected tok err) [SelectDiagram OTO1; Resolved 1 "<svg>B</svg>"] /\
     "<svg>B</svg>" = error_panel err c).
Proof.
  apply (view_shows_spinner_output_or_error
           [SelectDiagram OTO1; Resolved 1 "<svg>B</svg>"]).
  reflexivity.
Defined.

Lemma render_args_app (a b : list Mermaid.Call) :
  render_args (a ++ b) = (render_args a ++ render_args b)%list.
Proof. unfold render_args. apply flat_map_app. Qed.

Lemma deactivate_run_code (tok : nat) (rs : list Run) :
  map run_code (deactivate tok rs) = map run_code rs.
Proof.
  revert tok. induction rs as [|r rs IH]; intros [|k]; simpl; try reflexivity.
  now rewrite IH.
Qed.

Lemma combine_snoc {A B : Type} (l : list A) (l' : list B) (a : A) (b : B) :
  length l = length l' ->
  combine (l ++ [a]) (l' ++ [b]) = (combine l l' ++ [(a, b)])%list.
Proof.
  revert l'. induction l as [|x l IH]; intros [|y l'] H; simpl in *;
    try discriminate; [reflexivity|].
  rewrite IH by lia. reflexivity.
Qed.

Lemma one_call_per_run_new (rs : list Run) (cs : list Mermaid.Call) (c : string) :
  render_args cs = combine (seq 0 (length rs)) (map run_code rs) ->
  render_args (cs ++ [Mermaid.render (length rs) c]) =
  combine (seq 0 (length (rs ++ [{| run_code := c; active := true |}])))
          (map run_code (rs ++ [{| run_code := c; active := true |}])).
Proof.
  intros H. rewrite render_args_app, H, length_app, map_app. simpl.
  rewrite seq_app. simpl. rewrite combine_snoc; [reflexivity|].
  now rewrite length_seq, length_map.
Qed.

Lemma one_call_per_run_step (st : State) (e : Event) :
  one_call_per_run st -> one_call_per_run (step st e).
Proof.
  unfold one_call_per_run. intros H.
  step_cases st e; simpl; try exact H;
    try (rewrite render_args_app, H; simpl; now rewrite app_nil_r).
  - apply one_call_per_run_new.
    now rewrite deactivate_length, deactivate_run_code.
  - now rewrite deactivate_length, deactivate_run_code.
  - now apply one_call_per_run_new.
  - now rewrite deactivate_length, deactivate_run_code.
Qed.

(** X15: the engine is asked to render exactly once per run of the
    renderer's effect, in order and with that run's own source; a rejected
    render is never retried and a fulfilled one never repeated. *)
Theorem one_render_call_per_run (es : list Event) :
  render_args (mermaid_calls (run_events es mount)) =
    combine (seq 0 (length (runs (run_events es mount))))
            (map run_code (runs (run_events es mount))) /\
  length (render_calls (run_events es mount)) =
    length (runs (run_events es mount)) /\
  (forall tok err,
     mermaid_calls (step (run_events es mount) (Rejected tok err)) =
     mermaid_calls (run_events es mount)) /\
  (forall tok s,
     mermaid_calls (step (run_events es mount) (Resolved tok s)) =
     mermaid_calls (run_events es mount)).
Proof.
  pose proof (reachable_ind one_call_per_run) as H.
  specialize (H eq_refl one_call_per_run_step es).
  unfold one_call_per_run in H.
  set (st := run_events es mount) in *.
  split; [exact H|]. split; [|split].
  - assert (Hlen : forall cs, length (filter Mermaid.is_render cs) =
                              length (render_args cs)).
    { induction cs as [|[c|t x] cs IH]; simpl; [reflexivity|exact IH|].
      now rewrite IH. }
    unfold render_calls. rewrite Hlen, H, length_combine, length_seq, length_map.
    apply Nat.min_id.
  - intros tok err. simpl. unfold render_catch.
    destruct (nth_error (runs st) tok); [|reflexivity].
    now destruct (ref_current st).
  - intros tok s. simpl. unfold render_then.
    destruct (nth_error (runs st) tok) as [r|]; [|reflexivity].
    destruct (active r); [|reflexivity].
    now destruct (ref_current st).
Qed.
